(** * Genome dashboard: family concordance and lineage classification

    A shallow embedding of [src/utils/analysis.ts] and
    [src/utils/haplogroup.ts] of the genome dashboard, together with the
    properties of the four analyses (Mendelian consistency, mitochondrial
    concordance, sibling sharing, haplogroup estimate).

    Conventions of the embedding.
    - A JavaScript string is a [string]; each [ascii] stands for one UTF-16
      code unit below 256, so [String.length] is [.length] and
      [list_ascii_of_string] is [.split('')].
    - Counters that the code only ever increments ([consistent],
      [inconsistent], [total], [matches] of the haplogroup loop, ...) are
      integers in [Z].
    - Every other JavaScript number is a [Number.t]: NaN, an infinity or an
      exact rational.  [parseInt] rounds the integer it reads to binary64;
      the quotients and products of the percentages are exact rationals,
      their rounding to binary64 and the sign of zero are not modelled, so
      the properties speak of their bounds, order and thresholds, not of
      their digits.  The sums of halves of the sibling estimator are exact
      in binary64 anyway.
    - [Map<number, string>] is a [gmap Z string]; genomic positions are
      integers. *)

From Stdlib Require Import Ascii String QArith Lqa.
From stdpp Require Import gmap strings list.

Local Open Scope Z_scope.

(** ** JavaScript numbers *)

Module Number.

Inductive t : Type :=
| NaN
| Inf (negative : bool)
| Num (q : Q).

Definition ofZ (z : Z) : t := Num (inject_Z z).

(** The Number value of a mathematical integer, as [parseInt] returns it:
    the integer itself below 2^53 in magnitude; beyond that the nearest
    binary64 value, a 53-bit significand times a power of two, ties going
    to the even significand; and an infinity once the rounded magnitude
    reaches 2^1024. *)
Definition ofInteger (z : Z) : t :=
  let a := Z.abs z in
  if a <? 2 ^ 53 then Num (inject_Z z)
  else
    let e := Z.log2 a - 52 in
    let significand := a / 2 ^ e in
    let rest := a mod 2 ^ e in
    let half := 2 ^ (e - 1) in
    let rounded :=
      if (half <? rest) || ((rest =? half) && Z.odd significand)
      then significand + 1 else significand in
    if 2 ^ 1024 <=? rounded * 2 ^ e then Inf (z <? 0)
    else Num (inject_Z (Z.sgn z * (rounded * 2 ^ e))).

Definition Qltb (p q : Q) : bool := negb (Qle_bool q p).

(** [a / b] *)
Definition div (a b : t) : t :=
  match a, b with
  | NaN, _ | _, NaN => NaN
  | Inf _, Inf _ => NaN
  | Inf n, Num q => Inf (xorb n (Qltb q 0))
  | Num _, Inf _ => Num 0
  | Num p, Num q =>
      if Qeq_bool q 0
      then (if Qeq_bool p 0 then NaN else Inf (Qltb p 0))
      else Num (Qred (p / q))
  end.

(** [a * b] *)
Definition mul (a b : t) : t :=
  match a, b with
  | NaN, _ | _, NaN => NaN
  | Inf n, Inf m => Inf (xorb n m)
  | Inf n, Num q | Num q, Inf n =>
      if Qeq_bool q 0 then NaN else Inf (xorb n (Qltb q 0))
  | Num p, Num q => Num (Qred (p * q))
  end.

(** [a + b] *)
Definition add (a b : t) : t :=
  match a, b with
  | NaN, _ | _, NaN => NaN
  | Inf n, Inf m => if Bool.eqb n m then Inf n else NaN
  | Inf n, Num _ | Num _, Inf n => Inf n
  | Num p, Num q => Num (Qred (p + q))
  end.

(** [a < b]; every comparison with NaN is false. *)
Definition lt (a b : t) : bool :=
  match a, b with
  | NaN, _ | _, NaN => false
  | Inf n, Inf m => n && negb m
  | Inf n, Num _ => n
  | Num _, Inf m => negb m
  | Num p, Num q => Qltb p q
  end.

(** [a <= b] *)
Definition le (a b : t) : bool :=
  match a, b with
  | NaN, _ | _, NaN => false
  | Inf n, Inf m => n || negb m
  | Inf n, Num _ => n
  | Num _, Inf m => negb m
  | Num p, Num q => Qle_bool p q
  end.

(** [a > b] and [a >= b] *)
Definition gt (a b : t) : bool := lt b a.
Definition ge (a b : t) : bool := le b a.

(** the global [isNaN] *)
Definition isNaN (a : t) : bool :=
  match a with NaN => true | _ => false end.

End Number.

(** ** Strings and arrays of characters *)

(** [!s] for a string: only the empty string is falsy. *)
Definition falsy (s : string) : bool := String.eqb s "".

(** [s.split('')] *)
Definition split (s : string) : list ascii := list_ascii_of_string s.

(** [arr.includes(x)] where [x] is an element read by index, hence possibly
    [undefined] ([None]); an array of characters never holds [undefined]. *)
Definition arrayIncludes (arr : list ascii) (x : option ascii) : bool :=
  match x with
  | Some c => existsb (Ascii.eqb c) arr
  | None => false
  end.

(** [s.includes(t)]: [t] occurs in [s] as a substring. *)
Fixpoint includes (s t : string) : bool :=
  String.prefix t s ||
  match s with
  | EmptyString => false
  | String _ s' => includes s' t
  end.

Fixpoint indexOfFrom (arr : list ascii) (c : ascii) (i : Z) : Z :=
  match arr with
  | [] => -1
  | a :: rest => if Ascii.eqb a c then i else indexOfFrom rest c (i + 1)
  end.

(** [arr.indexOf(x)] *)
Definition indexOf (arr : list ascii) (x : option ascii) : Z :=
  match x with
  | Some c => indexOfFrom arr c 0
  | None => -1
  end.

(** [arr.splice(idx, 1)] for [idx >= 0], the only way the code calls it. *)
Definition splice1 (arr : list ascii) (idx : Z) : list ascii :=
  take (Z.to_nat idx) arr ++ drop (S (Z.to_nat idx)) arr.

Definition charLeb (a b : ascii) : bool :=
  (N_of_ascii a <=? N_of_ascii b)%N.

Fixpoint insertSorted (c : ascii) (l : list ascii) : list ascii :=
  match l with
  | [] => [c]
  | d :: rest => if charLeb c d then c :: d :: rest else d :: insertSorted c rest
  end.

(** [arr.sort()] on an array of one-character strings: ascending code units. *)
Definition sort (arr : list ascii) : list ascii :=
  foldr insertSorted [] arr.

(** ** [parseInt] without a radix (ECMAScript 19.2.5) *)

(** White space and line terminators among the code units below 256. *)
Definition isWhiteSpace (c : ascii) : bool :=
  let n := N_of_ascii c in
  ((n =? 9) || (n =? 10) || (n =? 11) || (n =? 12) || (n =? 13) ||
   (n =? 32) || (n =? 160))%N.

Fixpoint trimStart (s : string) : string :=
  match s with
  | EmptyString => EmptyString
  | String c rest => if isWhiteSpace c then trimStart rest else s
  end.

(** The value of a digit: 0-9, then a-z and A-Z for 10-35. *)
Definition digitValue (c : ascii) : option Z :=
  let n := Z.of_N (N_of_ascii c) in
  if (48 <=? n) && (n <=? 57) then Some (n - 48)
  else if (97 <=? n) && (n <=? 122) then Some (n - 87)
  else if (65 <=? n) && (n <=? 90) then Some (n - 55)
  else None.

Definition radixDigit (R : Z) (c : ascii) : option Z :=
  match digitValue c with
  | Some d => if d <? R then Some d else None
  | None => None
  end.

(** The longest prefix of radix-[R] digits of [s], read as an integer;
    [acc] is [None] until a first digit has been read. *)
Fixpoint digitsPrefix (R : Z) (s : string) (acc : option Z) : option Z :=
  match s with
  | EmptyString => acc
  | String c rest =>
      match radixDigit R c with
      | Some d => digitsPrefix R rest (Some (default 0 acc * R + d))
      | None => acc
      end
  end.

(** Steps 3 and 4: the sign, and the string without its sign character. *)
Definition signOf (s : string) : Z :=
  match s with String "-" _ => -1 | _ => 1 end.

Definition dropSign (s : string) : string :=
  match s with
  | String "+" rest | String "-" rest => rest
  | _ => s
  end.

(** Steps 6 to 8 for an undefined radix: [0x] or [0X] selects radix 16 and
    is stripped, anything else is read in radix 10. *)
Definition radixAndDigits (s : string) : Z * string :=
  match s with
  | String "0" (String "x" rest) | String "0" (String "X" rest) => (16, rest)
  | _ => (10, s)
  end.

Definition parseInt (input : string) : Number.t :=
  let trimmed := trimStart input in
  let sign := signOf trimmed in
  let '(R, digits) := radixAndDigits (dropSign trimmed) in
  match digitsPrefix R digits None with
  | None => Number.NaN
  | Some mathInt => Number.ofInteger (sign * mathInt)
  end.

(** ** The genotype record of [genomeParser.ts] *)

Record GenotypeEntry : Type := mkEntry {
  rsid : string;
  chromosome : string;
  position : Z;
  father : string;
  son1 : string;
  son2 : string;
  mother : string;
}.

(** ** analysis.ts *)

Module MendelianResult.
Record t : Type := mk {
  totalSNPs : Z;
  consistent : Z;
  inconsistent : Z;
  inconsistentEntries : list GenotypeEntry;
}.
End MendelianResult.

Module SiblingComparison.
Record t : Type := mk {
  totalSNPs : Z;
  matches : Number.t;
  matchPercentage : Number.t;
}.
End SiblingComparison.

(** The object literal returned by [analyzeMitochondrial]. *)
Module MitochondrialResult.
Record t : Type := mk {
  total : Z;
  matches : Z;
  mismatches : Z;
  mismatchedEntries : list GenotypeEntry;
}.
End MitochondrialResult.

(** The filter shared by [analyzeMendelianConsistency] and
    [analyzeSiblingSharing]:
    [!['X','Y','MT'].includes(e.chromosome) && !isNaN(parseInt(e.chromosome))] *)
Definition isAutosomal (e : GenotypeEntry) : bool :=
  negb (existsb (String.eqb (chromosome e)) ["X"; "Y"; "MT"]%string) &&
  negb (Number.isNaN (parseInt (chromosome e))).

Definition isConsistent (father mother child : string) : bool :=
  let fAlleles := split father in
  let mAlleles := split mother in
  let cAlleles := split child in
  let c1FromF := arrayIncludes fAlleles (cAlleles !! 0%nat) in
  let c2FromM := arrayIncludes mAlleles (cAlleles !! 1%nat) in
  if c1FromF && c2FromM then true
  else
    let c1FromM := arrayIncludes mAlleles (cAlleles !! 0%nat) in
    let c2FromF := arrayIncludes fAlleles (cAlleles !! 1%nat) in
    if c1FromM && c2FromF then true
    else false.

(** The loop state of [analyzeMendelianConsistency]:
    [consistent], [inconsistent], [inconsistentEntries]. *)
Definition MendelianState : Type := (Z * Z * list GenotypeEntry)%type.

Definition mendelianStep (st : MendelianState) (entry : GenotypeEntry)
  : MendelianState :=
  let '(consistent, inconsistent, inconsistentEntries) := st in
  if falsy (father entry) || falsy (mother entry) ||
     falsy (son1 entry) || falsy (son2 entry) then st
  else if negb (String.length (father entry) =? 2)%nat ||
          negb (String.length (mother entry) =? 2)%nat ||
          negb (String.length (son1 entry) =? 2)%nat ||
          negb (String.length (son2 entry) =? 2)%nat then st
  else if negb (isConsistent (father entry) (mother entry) (son1 entry))
  then (consistent, inconsistent + 1, inconsistentEntries ++ [entry])
  else if negb (isConsistent (father entry) (mother entry) (son2 entry))
  then (consistent, inconsistent + 1, inconsistentEntries ++ [entry])
  else (consistent + 1, inconsistent, inconsistentEntries).

Definition analyzeMendelianConsistency (entries : list GenotypeEntry)
  : MendelianResult.t :=
  let autosomal := List.filter isAutosomal entries in
  let '(consistent, inconsistent, inconsistentEntries) :=
    fold_left mendelianStep autosomal (0, 0, []) in
  {| MendelianResult.totalSNPs := consistent + inconsistent;
     MendelianResult.consistent := consistent;
     MendelianResult.inconsistent := inconsistent;
     MendelianResult.inconsistentEntries := inconsistentEntries |}.

Definition isMT (e : GenotypeEntry) : bool := String.eqb (chromosome e) "MT".

(** The loop state of [analyzeMitochondrial]:
    [matches], [mismatches], [mismatchedEntries]. *)
Definition MitochondrialState : Type := (Z * Z * list GenotypeEntry)%type.

Definition mitochondrialStep (st : MitochondrialState) (entry : GenotypeEntry)
  : MitochondrialState :=
  let '(matches, mismatches, mismatchedEntries) := st in
  if falsy (mother entry) || falsy (son1 entry) || falsy (son2 entry) then st
  else if (String.length (mother entry) =? 0)%nat ||
          (String.length (son1 entry) =? 0)%nat ||
          (String.length (son2 entry) =? 0)%nat then st
  else if String.eqb (mother entry) (son1 entry) &&
          String.eqb (mother entry) (son2 entry)
  then (matches + 1, mismatches, mismatchedEntries)
  else (matches, mismatches + 1, mismatchedEntries ++ [entry]).

Definition analyzeMitochondrial (entries : list GenotypeEntry)
  : MitochondrialResult.t :=
  let mtEntries := List.filter isMT entries in
  let '(matches, mismatches, mismatchedEntries) :=
    fold_left mitochondrialStep mtEntries (0, 0, []) in
  {| MitochondrialResult.total := matches + mismatches;
     MitochondrialResult.matches := matches;
     MitochondrialResult.mismatches := mismatches;
     MitochondrialResult.mismatchedEntries := mismatchedEntries |}.

(** The IBS count of one record, the body of the loop of
    [analyzeSiblingSharing] between the guard and [matches += shared / 2]. *)
Definition sharedAlleles (son1 son2 : string) : Z :=
  let s1 := sort (split son1) in
  let s2 := sort (split son2) in
  let shared := 0 in
  let s2Copy := s2 in
  let idx1 := indexOf s2Copy (s1 !! 0%nat) in
  let '(shared, s2Copy) :=
    if negb (idx1 =? -1) then (shared + 1, splice1 s2Copy idx1)
    else (shared, s2Copy) in
  let shared :=
    if arrayIncludes s2Copy (s1 !! 1%nat) then shared + 1 else shared in
  shared.

(** The loop state of [analyzeSiblingSharing]: [matches], [total]. *)
Definition SiblingState : Type := (Number.t * Z)%type.

Definition siblingStep (st : SiblingState) (entry : GenotypeEntry)
  : SiblingState :=
  let '(matches, total) := st in
  if falsy (son1 entry) || falsy (son2 entry) ||
     negb (String.length (son1 entry) =? 2)%nat ||
     negb (String.length (son2 entry) =? 2)%nat then st
  else
    let shared := sharedAlleles (son1 entry) (son2 entry) in
    (Number.add matches (Number.div (Number.ofZ shared) (Number.ofZ 2)),
     total + 1).

Definition analyzeSiblingSharing (entries : list GenotypeEntry)
  : SiblingComparison.t :=
  let autosomal := List.filter isAutosomal entries in
  let '(matches, total) :=
    fold_left siblingStep autosomal (Number.ofZ 0, 0) in
  {| SiblingComparison.totalSNPs := total;
     SiblingComparison.matches := matches;
     SiblingComparison.matchPercentage :=
       if total >? 0
       then Number.mul (Number.div matches (Number.ofZ total)) (Number.ofZ 100)
       else Number.ofZ 0 |}.

(** ** haplogroup.ts *)

Module Marker.
Record t : Type := mk {
  position : Z;
  allele : string;
  weight : Z;
}.
End Marker.

(** The rule's [chromosome] field has the one-value type ['MT'] and is never
    read; it is left out. *)
Module HaplogroupRule.
Record t : Type := mk {
  haplogroup : string;
  markers : list Marker.t;
  description : option string;
}.
End HaplogroupRule.

(** [const m = (pos, allele, weight = 1) => ...] *)
Definition m (pos : Z) (allele : string) : Marker.t :=
  Marker.mk pos allele 1.

Definition mtRules : list HaplogroupRule.t :=
  [ HaplogroupRule.mk "H"
      [m 7028 "C"; m 2706 "A"]
      (Some "The most common maternal lineage in Europe.");
    HaplogroupRule.mk "H7"
      [m 7028 "C"; m 2706 "A"; m 4793 "G"]
      (Some "Found across Europe, with peaks in the Near East and Basque country.");
    HaplogroupRule.mk "H7a"
      [m 7028 "C"; m 2706 "A"; m 4793 "G"; m 1719 "A"]
      (Some "A specific subclade of H7.");
    HaplogroupRule.mk "H7a1"
      [m 7028 "C"; m 2706 "A"; m 4793 "G"; m 1719 "A"; m 16261 "T"]
      (Some "Your Father's probable lineage.");
    HaplogroupRule.mk "H11"
      [m 7028 "C"; m 2706 "A"; m 8448 "C"; m 13759 "A"]
      (Some "An ancient European lineage, common in Central/Eastern Europe.");
    HaplogroupRule.mk "H11a"
      [m 7028 "C"; m 2706 "A"; m 8448 "C"; m 13759 "A"; m 961 "G"; m 16293 "G"]
      (Some "Widespread in Central and Eastern Europe.");
    HaplogroupRule.mk "H11a2"
      [m 7028 "C"; m 2706 "A"; m 8448 "C"; m 13759 "A"; m 961 "G"; m 16293 "G";
       m 14587 "G"]
      (Some "Specific branch of H11a.");
    HaplogroupRule.mk "H11a2a2"
      [m 8448 "C"; m 13759 "A"; m 16293 "G"; m 14587 "G"; m 16140 "C";
       m 5585 "A"; m 15670 "C"]
      (Some "Your Mother's probable lineage (Central/Eastern European).");
    HaplogroupRule.mk "M"
      [m 10400 "T"; m 14783 "C"]
      (Some "Major Asian haplogroup.");
    HaplogroupRule.mk "A"
      [m 663 "G"; m 1736 "A"]
      (Some "Found in Indigenous Americas and Asia.");
    HaplogroupRule.mk "B"
      [m 8281 "d"; m 8282 "d"; m 8283 "d"]
      (Some "Found in Indigenous Americas and Asia (9bp deletion).") ]%string.

Module Details.
Record t : Type := mk {
  matchCount : Z;
  totalmarkers : Z;
  percentage : Number.t;
  description : option string;
}.
End Details.

Module HaplogroupResult.
Record t : Type := mk {
  maternal : string;
  paternal : string;
  details : option Details.t;
}.
End HaplogroupResult.

(** The object held by [let bestMatch]. *)
Module BestMatch.
Record t : Type := mk {
  haplogroup : string;
  matches : Z;
  total : Z;
  percentage : Number.t;
  description : string;
}.
End BestMatch.

(** [e.mother && e.mother !== '--' ? e.mother : e.son1] *)
Definition preferredAllele (e : GenotypeEntry) : string :=
  if negb (falsy (mother e)) && negb (String.eqb (mother e) "--")
  then mother e else son1 e.

(** One turn of the first loop of [estimateHaplogroups]. *)
Definition gatherStep (mtEntries : gmap Z string) (e : GenotypeEntry)
  : gmap Z string :=
  if String.eqb (chromosome e) "MT" then
    let allele := preferredAllele e in
    if negb (falsy allele) then <[position e := allele]> mtEntries
    else mtEntries
  else mtEntries.

Definition gatherMtEntries (entries : list GenotypeEntry) : gmap Z string :=
  fold_left gatherStep entries ∅.

(** One turn of the loop over [rule.markers]; the state is
    [(matches, total)]. *)
Definition markerStep (mtEntries : gmap Z string) (st : Z * Z) (m : Marker.t)
  : Z * Z :=
  let '(matches, total) := st in
  match mtEntries !! Marker.position m with
  | Some val =>
      if negb (falsy val) then
        if includes val (Marker.allele m) then (matches + 1, total + 1)
        else (matches, total + 1)
      else (matches, total)
  | None => (matches, total)
  end.

Definition countMarkers (mtEntries : gmap Z string) (rule : HaplogroupRule.t)
  : Z * Z :=
  fold_left (markerStep mtEntries) (HaplogroupRule.markers rule) (0, 0).

(** [(matches / total) * 100] *)
Definition percentageOf (matches total : Z) : Number.t :=
  Number.mul (Number.div (Number.ofZ matches) (Number.ofZ total))
             (Number.ofZ 100).

(** [(matches * 100) + percentage] *)
Definition scoreOf (matches : Z) (percentage : Number.t) : Number.t :=
  Number.add (Number.mul (Number.ofZ matches) (Number.ofZ 100)) percentage.

(** One turn of the loop over the rule table. *)
Definition ruleStep (mtEntries : gmap Z string) (bestMatch : BestMatch.t)
    (rule : HaplogroupRule.t) : BestMatch.t :=
  let '(matches, total) := countMarkers mtEntries rule in
  if total >? 0 then
    let percentage := percentageOf matches total in
    if Number.ge percentage (Number.ofZ 50) then
      let score := scoreOf matches percentage in
      let currentScore :=
        scoreOf (BestMatch.matches bestMatch) (BestMatch.percentage bestMatch) in
      if Number.gt score currentScore then
        {| BestMatch.haplogroup := HaplogroupRule.haplogroup rule;
           BestMatch.matches := matches;
           BestMatch.total := total;
           BestMatch.percentage := percentage;
           BestMatch.description :=
             default ""%string (HaplogroupRule.description rule) |}
      else bestMatch
    else bestMatch
  else bestMatch.

Definition initialBestMatch : BestMatch.t :=
  {| BestMatch.haplogroup := "Undetermined";
     BestMatch.matches := 0;
     BestMatch.total := 0;
     BestMatch.percentage := Number.ofZ 0;
     BestMatch.description := "" |}.

Definition findBestMatch (rules : list HaplogroupRule.t)
    (mtEntries : gmap Z string) : BestMatch.t :=
  fold_left (ruleStep mtEntries) rules initialBestMatch.

(** [estimateHaplogroups] with the rule table as a parameter. *)
Definition estimateHaplogroupsWith (rules : list HaplogroupRule.t)
    (entries : list GenotypeEntry) : HaplogroupResult.t :=
  let mtEntries := gatherMtEntries entries in
  let bestMatch := findBestMatch rules mtEntries in
  let maternalHaplo :=
    if negb (String.eqb (BestMatch.haplogroup bestMatch) "Undetermined")
    then BestMatch.haplogroup bestMatch
    else "Undetermined (Try external tool)"%string in
  {| HaplogroupResult.maternal := maternalHaplo;
     HaplogroupResult.paternal :=
       "Requires advanced Y-tree traversal (External Tool Recommended)";
     HaplogroupResult.details :=
       Some {| Details.matchCount := BestMatch.matches bestMatch;
               Details.totalmarkers := BestMatch.total bestMatch;
               Details.percentage := BestMatch.percentage bestMatch;
               Details.description := Some (BestMatch.description bestMatch) |} |}.

Definition estimateHaplogroups (entries : list GenotypeEntry)
  : HaplogroupResult.t :=
  estimateHaplogroupsWith mtRules entries.

(** ** analysis.ts: the trait tables *)

Module TraitDefinition.
Record t : Type := mk {
  rsid : string;
  trait : string;
  description : string;
  riskAllele : option string;
  interpretation : string → string;
}.
End TraitDefinition.

(** The one-character string holding a double quote. *)
Definition doubleQuote : string := String (ascii_of_nat 34) EmptyString.

Definition knownTraits : list TraitDefinition.t :=
  [
  TraitDefinition.mk "rs3093024"
    "Rheumatoid Arthritis Risk"
    "Genetic variation associated with Rheumatoid Arthritis."
    (Some "A")
    (λ g, if includes g "A" then "Increased risk (A allele present)" else "Typical risk");
  TraitDefinition.mk "rs744373"
    "Alzheimer's Disease Risk (BIN1)"
    "Variant near BIN1 gene linked to late-onset Alzheimer's."
    None
    (λ g, if includes g "G" then "Slightly increased risk (G allele)" else "Typical risk (A allele)");
  TraitDefinition.mk "rs597668"
    "Alzheimer's Disease Risk (EXOC3L2)"
    "Variant associated with late-onset Alzheimer's."
    None
    (λ g, if includes g "T" then "Potential increased risk (T allele)" else "Typical risk (C allele)");
  TraitDefinition.mk "rs2075650"
    "Longevity / Alzheimer's (TOMM40)"
    "Associated with longevity and Alzheimer's risk (TOMM40 gene)."
    None
    (λ g, if includes g "G" then "Potential increased Alzheimer's risk / lower longevity factor (G allele)" else "Associated with longevity (A allele)");
  TraitDefinition.mk "rs10427255"
    "Photic Sneeze Reflex"
    "Sneezing when exposed to bright light."
    None
    (λ g, if includes g "C" then "Likely has photic sneeze reflex (C allele)" else "Likely does not have photic sneeze reflex (TT)");
  TraitDefinition.mk "rs4988235"
    "Lactose Intolerance (MCM6)"
    "Predicts ability to digest milk as an adult."
    None
    (λ g, if includes g "A" then "Likely Lactose Tolerant (Can drink milk)" else "Likely Lactose Intolerant");
  TraitDefinition.mk "rs12913832"
    "Eye Color (HERC2)"
    "Strongly associated with blue vs. brown eyes."
    None
    (λ g, if String.eqb g "GG" || String.eqb g "CC" then "Likely Blue/Light Eyes"
         else "Likely Brown/Hazel Eyes");
  TraitDefinition.mk "rs1815739"
    "Muscle Performance (ACTN3)"
    ("The " ++ doubleQuote ++ "Sprinter" ++ doubleQuote ++ " vs " ++
     doubleQuote ++ "Endurance" ++ doubleQuote ++ " gene.")
    None
    (λ g, if String.eqb g "CC" then "Power/Sprinter Type (RR)"
         else if String.eqb g "CT" then "Mixed Muscle Type (RX)"
         else "Endurance Type (XX)");
  TraitDefinition.mk "rs762551"
    "Caffeine Metabolism (CYP1A2)"
    "Speed of caffeine breakdown in the liver."
    None
    (λ g, if String.eqb g "AA" then "Fast Metabolizer" else "Slow Metabolizer");
  TraitDefinition.mk "rs671"
    "Alcohol Flush Reaction (ALDH2)"
    "Asian flush reaction to alcohol."
    None
    (λ g, if includes g "A" then "Likely has Alcohol Flush Reaction" else "Tolerant to Alcohol");
  TraitDefinition.mk "rs17822931"
    "Earwax Type (ABCC11)"
    "Wet vs. Dry earwax type."
    None
    (λ g, if includes g "C" then "Wet Earwax" else "Dry Earwax");
  TraitDefinition.mk "rs4680"
    "COMT (Warrior vs Worrier)"
    "Dopamine breakdown rate affecting stress response."
    None
    (λ g, if String.eqb g "AA" then "Worrier (Higher Dopamine, Pain Sensitivity)"
         else if String.eqb g "GG" then "Warrior (Lower Dopamine, High Pain Threshold)"
         else "Mixed (Intermediate)")
  ]%string.

Definition wellnessTraits : list TraitDefinition.t :=
  [
  TraitDefinition.mk "rs8176746"
    "ABO Blood Group (B Allele)"
    "Determines A vs B blood type (along with O deletion)."
    None
    (λ g, if includes g "G" || includes g "C" then "Contains Type B variant"
         else "Likely Type A (or O if deletion present)");
  TraitDefinition.mk "rs1801133"
    "MTHFR (Folate Metabolism)"
    "Efficiency of processing folate/folic acid."
    None
    (λ g, if String.eqb g "AA" || String.eqb g "TT"
         then "Reduced efficiency (~30-60%). Consider methylated B vitamins."
         else if String.eqb g "AG" || String.eqb g "CT" || String.eqb g "GA"
         then "Slightly reduced efficiency (~80%)."
         else "Normal folate metabolism.");
  TraitDefinition.mk "rs5082"
    "Saturated Fat Sensitivity (APOA2)"
    "Weight gain response to saturated fat intake."
    None
    (λ g, if String.eqb g "CC" then "Sensitive to Saturated Fat (Limit intake)."
         else "Normal Saturated Fat metabolism.");
  TraitDefinition.mk "rs9923231"
    "Warfarin Sensitivity (VKORC1)"
    "Sensitivity to the blood thinner Warfarin."
    None
    (λ g, if includes g "T" || includes g "A"
         then "Increased Sensitivity (Lower dose may be required)."
         else "Normal Sensitivity.");
  TraitDefinition.mk "rs4244285"
    "Clopidogrel (Plavix) Metabolism"
    "Effectiveness of the heart drug Plavix."
    None
    (λ g, if includes g "C" then "Likely Poor Metabolizer (Drug may be less effective)." else "Normal Metabolism.");
  TraitDefinition.mk "rs72921001"
    "Cilantro Taste (OR6A2)"
    "Does cilantro taste like soap?"
    None
    (λ g, if includes g "C" then "Likely tastes like soap." else "Likely tastes herbal/fresh.");
  TraitDefinition.mk "rs2937573"
    "Misophonia Risk"
    "Heightened sensitivity to chewing/eating sounds."
    None
    (λ g, if includes g "G" then "Higher likelihood of Misophonia." else "Typical sensitivity.");
  TraitDefinition.mk "rs4646"
    "Motion Sickness (CYP2D6)"
    "Susceptibility to motion sickness."
    None
    (λ g, if includes g "A" then "Likely susceptible to motion sickness." else "Typical susceptibility.");
  TraitDefinition.mk "rs1333049"
    "Asparagus Smell"
    ("Ability to smell " ++ doubleQuote ++ "asparagus urine" ++ doubleQuote ++ ".")
    None
    (λ g, if includes g "G" then "Can likely smell asparagus metabolites." else "Likely cannot smell it.");
  TraitDefinition.mk "rs4804148"
    "Neanderthal Variant (Immune)"
    "A specific genetic marker inherited from Neanderthals (TLR1 gene)."
    None
    (λ g, if includes g "G" then "Carries a Neanderthal variant (Associated with immune response)." else "Modern human variant.");
  TraitDefinition.mk "rs16988151"
    "Neanderthal Variant (Skin/Hair)"
    "Neanderthal marker associated with skin & hair traits (BNC2 gene)."
    None
    (λ g, if includes g "A" then "Carries a Neanderthal variant (Associated with freckling/skin traits)." else "Modern human variant.");
  TraitDefinition.mk "rs8176719"
    "Mosquito Magnet (Blood Type O)"
    "People with Blood Type O are often found to be more attractive to mosquitoes."
    None
    (λ g, if includes g "-" || includes g "D"
         then "Likely Type O Allele (Higher Mosquito Attraction)."
         else if includes g "G" || includes g "I"
         then "Likely Type A/B/AB (Lower Mosquito Attraction)."
         else "Genotype format unclear.")
  ]%string.

(** [{ genotype: entry.father, interpretation: trait.interpretation(entry.father) }] *)
Module PersonResult.
Record t : Type := mk {
  genotype : string;
  interpretation : string;
}.
End PersonResult.

Module Genotypes.
Record t : Type := mk {
  father : PersonResult.t;
  mother : PersonResult.t;
  son1 : PersonResult.t;
  son2 : PersonResult.t;
}.
End Genotypes.

(** The object pushed on [results] by [analyzeTraits] and [analyzeWellness]. *)
Module TraitResult.
Record t : Type := mk {
  trait : string;
  rsid : string;
  description : string;
  genotypes : Genotypes.t;
}.
End TraitResult.

Definition personResult (trait : TraitDefinition.t) (genotype : string)
  : PersonResult.t :=
  {| PersonResult.genotype := genotype;
     PersonResult.interpretation := TraitDefinition.interpretation trait genotype |}.

(** One turn of the loop over a trait table: the two functions have the
    same loop body. *)
Definition traitStep (entries : list GenotypeEntry)
    (results : list TraitResult.t) (trait : TraitDefinition.t)
  : list TraitResult.t :=
  match List.find (λ e, String.eqb (rsid e) (TraitDefinition.rsid trait)) entries with
  | Some entry =>
      results ++
      [{| TraitResult.trait := TraitDefinition.trait trait;
          TraitResult.rsid := TraitDefinition.rsid trait;
          TraitResult.description := TraitDefinition.description trait;
          TraitResult.genotypes :=
            {| Genotypes.father := personResult trait (father entry);
               Genotypes.mother := personResult trait (mother entry);
               Genotypes.son1 := personResult trait (son1 entry);
               Genotypes.son2 := personResult trait (son2 entry) |} |}]
  | None => results
  end.

Definition analyzeTraits (entries : list GenotypeEntry) : list TraitResult.t :=
  fold_left (traitStep entries) knownTraits [].

Definition analyzeWellness (entries : list GenotypeEntry) : list TraitResult.t :=
  fold_left (traitStep entries) wellnessTraits [].

(** ** Dashboard.tsx: the Mendelian error rate *)

(** [(mendelian.inconsistent / mendelian.totalSNPs) * 100] *)
Definition errorRate (mendelian : MendelianResult.t) : Number.t :=
  Number.mul
    (Number.div (Number.ofZ (MendelianResult.inconsistent mendelian))
                (Number.ofZ (MendelianResult.totalSNPs mendelian)))
    (Number.ofZ 100).

(** [errorRate > 1.0] *)
Definition isHighError (mendelian : MendelianResult.t) : bool :=
  Number.gt (errorRate mendelian) (Number.Num 1).

(** ** genomeParser.ts *)

(** [parseInt(s, 10)]: as [parseInt], but no [0x] prefix is looked for. *)
Definition parseInt10 (input : string) : Number.t :=
  let trimmed := trimStart input in
  let sign := signOf trimmed in
  match digitsPrefix 10 (dropSign trimmed) None with
  | None => Number.NaN
  | Some mathInt => Number.ofInteger (sign * mathInt)
  end.

(** [s.split(sep)] for a one-character separator. *)
Fixpoint splitOnChar (sep : ascii) (s : string) : list string :=
  match s with
  | EmptyString => [EmptyString]
  | String c rest =>
      let tokens := splitOnChar sep rest in
      if Ascii.eqb c sep then EmptyString :: tokens
      else match tokens with
           | t :: ts => String c t :: ts
           | [] => [String c EmptyString]
           end
  end.

(** [s.split(/\s+/)]: the pieces between the maximal runs of white space;
    a run at either end leaves an empty piece there. *)
Fixpoint splitWhitespace (s : string) : list string :=
  match s with
  | EmptyString => [EmptyString]
  | String c rest =>
      let tokens := splitWhitespace rest in
      if isWhiteSpace c then
        match rest with
        | String d _ => if isWhiteSpace d then tokens else EmptyString :: tokens
        | EmptyString => EmptyString :: tokens
        end
      else match tokens with
           | t :: ts => String c t :: ts
           | [] => [String c EmptyString]
           end
  end.

Fixpoint trimEnd (s : string) : string :=
  match s with
  | EmptyString => EmptyString
  | String c rest =>
      match trimEnd rest with
      | EmptyString => if isWhiteSpace c then EmptyString else String c EmptyString
      | kept => String c kept
      end
  end.

(** [s.trim()] *)
Definition trim (s : string) : string := trimEnd (trimStart s).

(** A [GenotypeEntry] as the parser builds it: [position] is the number that
    [parseInt] returns, NaN included. *)
Record ParsedEntry : Type := mkParsed {
  parsed_rsid : string;
  parsed_chromosome : string;
  parsed_position : Number.t;
  parsed_father : string;
  parsed_son1 : string;
  parsed_son2 : string;
  parsed_mother : string;
}.

Module Metadata.
Record t : Type := mk {
  count : Z;
  chromosomes : list string;
}.
End Metadata.

Module ParsedData.
Record t : Type := mk {
  entries : list ParsedEntry;
  metadata : Metadata.t;
}.
End ParsedData.

(** [const clean = (g) => (g === '--' || g === '__' ? '' : g)] *)
Definition clean (g : string) : string :=
  if String.eqb g "--" || String.eqb g "__" then EmptyString else g.

(** [chromosomes.add(c)] on a [Set] kept in insertion order. *)
Definition setAdd (c : string) (chromosomes : list string) : list string :=
  if existsb (String.eqb c) chromosomes then chromosomes
  else chromosomes ++ [c].

(** One turn of the loop over the lines; the state is [entries] and the
    set [chromosomes]. *)
Definition lineStep (st : list ParsedEntry * list string) (line : string)
  : list ParsedEntry * list string :=
  let '(entries, chromosomes) := st in
  let trimmed := trim line in
  if falsy trimmed || String.prefix "#" trimmed then st
  else
    let parts := splitWhitespace trimmed in
    if (length parts <? 7)%nat then st
    else
      match parts with
      | rsid :: chromosome :: positionStr :: father :: son1 :: son2 :: mother :: _ =>
          let entry :=
            {| parsed_rsid := rsid;
               parsed_chromosome := chromosome;
               parsed_position := parseInt10 positionStr;
               parsed_father := clean father;
               parsed_son1 := clean son1;
               parsed_son2 := clean son2;
               parsed_mother := clean mother |} in
          (entries ++ [entry], setAdd chromosome chromosomes)
      | _ => st
      end.

Definition parseGenomeData (content : string) : ParsedData.t :=
  let lines := splitOnChar "010" content in
  let '(entries, chromosomes) := fold_left lineStep lines ([], []) in
  {| ParsedData.entries := entries;
     ParsedData.metadata :=
       {| Metadata.count := Z.of_nat (length entries);
          Metadata.chromosomes := chromosomes |} |}.

(** The parsed record as the analyses take it, when its position is an
    integer. *)
Definition toGenotypeEntry (e : ParsedEntry) : option GenotypeEntry :=
  match parsed_position e with
  | Number.Num (z # 1) =>
      Some {| rsid := parsed_rsid e;
              chromosome := parsed_chromosome e;
              position := z;
              father := parsed_father e;
              son1 := parsed_son1 e;
              son2 := parsed_son2 e;
              mother := parsed_mother e |}
  | _ => None
  end.

(** ** Vocabulary of the properties *)

(** The chromosome label is an unsigned decimal integer: one or more
    decimal digits and nothing else. *)
Definition isDecimalDigit (c : ascii) : bool :=
  let n := N_of_ascii c in ((48 <=? n) && (n <=? 57))%N.

Definition isUnsignedDecimal (s : string) : bool :=
  negb (falsy s) && forallb isDecimalDigit (split s).

(** What [parseInt] accepts: after leading white space, one optional sign
    and an optional [0x] or [0X], the next character is a digit of the
    radix (hexadecimal behind the prefix, decimal otherwise).  Whatever
    follows that digit is not looked at. *)
Definition hasNumericPrefix (s : string) : bool :=
  let '(R, digits) := radixAndDigits (dropSign (trimStart s)) in
  match digits with
  | String c _ => bool_decide (is_Some (radixDigit R c))
  | EmptyString => false
  end.

(** The record passes the two guards of the Mendelian loop. *)
Definition mendelianChecked (e : GenotypeEntry) : bool :=
  (String.length (father e) =? 2)%nat && (String.length (mother e) =? 2)%nat &&
  (String.length (son1 e) =? 2)%nat && (String.length (son2 e) =? 2)%nat.

(** Both children pass the trio predicate. *)
Definition trioConsistent (e : GenotypeEntry) : bool :=
  isConsistent (father e) (mother e) (son1 e) &&
  isConsistent (father e) (mother e) (son2 e).

(** The checked records that the Mendelian loop counts as consistent, and
    those it lists as inconsistent. *)
Definition consistentCount (l : list GenotypeEntry) : Z :=
  Z.of_nat (length (List.filter (λ e, mendelianChecked e && trioConsistent e) l)).

Definition inconsistentList (l : list GenotypeEntry) : list GenotypeEntry :=
  List.filter (λ e, mendelianChecked e && negb (trioConsistent e)) l.

(** Allele [i] of the child is one of the two alleles of the parent. *)
Definition fromParent (parent child : string) (i : nat) : Prop :=
  ∃ a, String.get i child = Some a ∧
       (String.get 0 parent = Some a ∨ String.get 1 parent = Some a).

(** The record passes the guard of the sibling loop. *)
Definition siblingChecked (e : GenotypeEntry) : bool :=
  (String.length (son1 e) =? 2)%nat && (String.length (son2 e) =? 2)%nat.

(** The record passes the guard of the mitochondrial loop. *)
Definition mitochondrialChecked (e : GenotypeEntry) : bool :=
  negb (falsy (mother e)) && negb (falsy (son1 e)) && negb (falsy (son2 e)).

Fixpoint removeFirst (c : ascii) (l : list ascii) : list ascii :=
  match l with
  | [] => []
  | d :: rest => if Ascii.eqb d c then rest else d :: removeFirst c rest
  end.

(** Multiset consumption: every allele of [xs] in turn takes one matching
    allele out of [ys], if there is one left; the number that found one. *)
Fixpoint consumeCount (xs ys : list ascii) : Z :=
  match xs with
  | [] => 0
  | x :: xs' =>
      if existsb (Ascii.eqb x) ys then 1 + consumeCount xs' (removeFirst x ys)
      else consumeCount xs' ys
  end.

Definition swapSons (e : GenotypeEntry) : GenotypeEntry :=
  {| rsid := rsid e; chromosome := chromosome e; position := position e;
     father := father e; son1 := son2 e; son2 := son1 e; mother := mother e |}.

Definition setFather (f : string) (e : GenotypeEntry) : GenotypeEntry :=
  {| rsid := rsid e; chromosome := chromosome e; position := position e;
     father := f; son1 := son1 e; son2 := son2 e; mother := mother e |}.

(** Two records that differ at most in the father's genotype. *)
Definition sameButFather (e e' : GenotypeEntry) : Prop :=
  rsid e = rsid e' ∧ chromosome e = chromosome e' ∧ position e = position e' ∧
  son1 e = son1 e' ∧ son2 e = son2 e' ∧ mother e = mother e'.

(** The marker counts, the percentage and the score of a rule. *)
Definition ruleMatches (mtEntries : gmap Z string) (rule : HaplogroupRule.t) : Z :=
  fst (countMarkers mtEntries rule).

Definition ruleTotal (mtEntries : gmap Z string) (rule : HaplogroupRule.t) : Z :=
  snd (countMarkers mtEntries rule).

Definition rulePercentage (mtEntries : gmap Z string) (rule : HaplogroupRule.t)
  : Number.t :=
  percentageOf (ruleMatches mtEntries rule) (ruleTotal mtEntries rule).

Definition ruleScore (mtEntries : gmap Z string) (rule : HaplogroupRule.t)
  : Number.t :=
  scoreOf (ruleMatches mtEntries rule) (rulePercentage mtEntries rule).

(** A candidate: at least one tested marker and a percentage of 50 or more. *)
Definition isCandidate (mtEntries : gmap Z string) (rule : HaplogroupRule.t)
  : bool :=
  (ruleTotal mtEntries rule >? 0) &&
  Number.ge (rulePercentage mtEntries rule) (Number.ofZ 50).

(** The best match that a winning rule leaves behind. *)
Definition bestMatchOf (mtEntries : gmap Z string) (rule : HaplogroupRule.t)
  : BestMatch.t :=
  {| BestMatch.haplogroup := HaplogroupRule.haplogroup rule;
     BestMatch.matches := ruleMatches mtEntries rule;
     BestMatch.total := ruleTotal mtEntries rule;
     BestMatch.percentage := rulePercentage mtEntries rule;
     BestMatch.description :=
       default ""%string (HaplogroupRule.description rule) |}.

(** [best] is the rule at index [j], a candidate whose score no candidate
    of the table exceeds and no candidate listed before it reaches. *)
Definition firstHighest (mtEntries : gmap Z string)
    (rules : list HaplogroupRule.t) (j : nat) (best : HaplogroupRule.t) : Prop :=
  rules !! j = Some best ∧
  isCandidate mtEntries best = true ∧
  (∀ (k : nat) (r : HaplogroupRule.t),
     rules !! k = Some r → isCandidate mtEntries r = true →
     Number.le (ruleScore mtEntries r) (ruleScore mtEntries best) = true) ∧
  (∀ (k : nat) (r : HaplogroupRule.t),
     (k < j)%nat → rules !! k = Some r → isCandidate mtEntries r = true →
     Number.lt (ruleScore mtEntries r) (ruleScore mtEntries best) = true).

(** What the loop over the rule table has selected after [rules]. *)
Definition selected (mtEntries : gmap Z string)
    (rules : list HaplogroupRule.t) (bestMatch : BestMatch.t) : Prop :=
  (bestMatch = initialBestMatch ∧
   Forall (λ r, isCandidate mtEntries r = false) rules) ∨
  (∃ (j : nat) (best : HaplogroupRule.t),
     firstHighest mtEntries rules j best ∧
     bestMatch = bestMatchOf mtEntries best).

(** The label shown for a best match. *)
Definition maternalLabel (haplogroup : string) : string :=
  if negb (String.eqb haplogroup "Undetermined") then haplogroup
  else "Undetermined (Try external tool)".

(** No record of the list writes the lookup at position [p]. *)
Definition silentAt (p : Z) (l : list GenotypeEntry) : Prop :=
  Forall (λ e, isMT e = true → position e = p → preferredAllele e = ""%string) l.

(** The preferred genotype in the words of the specification: the mother's
    if it is not empty, else son1's. *)
Definition preferredBySpec (e : GenotypeEntry) : string :=
  if negb (falsy (mother e)) then mother e else son1 e.

(** Father and mother exchanged. *)
Definition swapParents (e : GenotypeEntry) : GenotypeEntry :=
  {| rsid := rsid e; chromosome := chromosome e; position := position e;
     father := mother e; son1 := son1 e; son2 := son2 e; mother := father e |}.

(** The mother's string is the string of both sons. *)
Definition mitochondrialMatch (e : GenotypeEntry) : bool :=
  String.eqb (mother e) (son1 e) && String.eqb (mother e) (son2 e).

(** The records that the mitochondrial loop lists as mismatched. *)
Definition mismatchList (l : list GenotypeEntry) : list GenotypeEntry :=
  List.filter (λ e, mitochondrialChecked e && negb (mitochondrialMatch e)) l.

Definition matchCount (l : list GenotypeEntry) : Z :=
  Z.of_nat (length (List.filter
    (λ e, mitochondrialChecked e && mitochondrialMatch e) l)).

(** The number of alleles shared over the records that pass the guard of
    the sibling loop, and the number of those records. *)
Definition sharedTotal (l : list GenotypeEntry) : Z :=
  foldr (λ e acc,
           (if siblingChecked e then sharedAlleles (son1 e) (son2 e) else 0) + acc)
        0 l.

Definition checkedCount (l : list GenotypeEntry) : Z :=
  Z.of_nat (length (List.filter siblingChecked l)).

(** Two records with the same chromosome, position, mother and son1. *)
Definition sameForClassifier (e e' : GenotypeEntry) : Prop :=
  chromosome e = chromosome e' ∧ position e = position e' ∧
  mother e = mother e' ∧ son1 e = son1 e'.

(** The entries that one line contributes: none or one. *)
Definition lineEntries (line : string) : list ParsedEntry :=
  (lineStep ([], []) line).1.

(** The line is skipped by the parser's three tests. *)
Definition lineSkipped (line : string) : bool :=
  falsy (trim line) || String.prefix "#" (trim line) ||
  (length (splitWhitespace (trim line)) <? 7)%nat.

Definition noNewline (s : string) : bool :=
  forallb (λ c, negb (Ascii.eqb c "010")) (split s).

Definition wsFree (s : string) : bool :=
  forallb (λ c, negb (isWhiteSpace c)) (split s).

(** A field of a data line: not empty and free of white space. *)
Definition isField (s : string) : bool := negb (falsy s) && wsFree s.

(** The fields written on one line with [sep] between them. *)
Fixpoint joinWith (sep : ascii) (fields : list string) : string :=
  match fields with
  | [] => EmptyString
  | [t] => t
  | t :: rest => t ++ String sep (joinWith sep rest)
  end.

(** The chromosome set after the labels [cs] have been added in order. *)
Definition addAll (chromosomes cs : list string) : list string :=
  fold_left (λ acc c, setAdd c acc) cs chromosomes.

(** The record writes the position lookup: it is an MT record whose
    preferred genotype is not empty. *)
Definition writesLookup (e : GenotypeEntry) : bool :=
  isMT e && negb (falsy (preferredAllele e)).

(** The marker is tested: the lookup holds a non-empty genotype at its
    position.  It is matched: that genotype contains the marker's allele. *)
Definition markerTested (mtEntries : gmap Z string) (m : Marker.t) : bool :=
  match mtEntries !! Marker.position m with
  | Some val => negb (falsy val)
  | None => false
  end.

Definition markerMatched (mtEntries : gmap Z string) (m : Marker.t) : bool :=
  match mtEntries !! Marker.position m with
  | Some val => negb (falsy val) && includes val (Marker.allele m)
  | None => false
  end.

(** The labels of a list, each kept where it first appears. *)
Fixpoint firstOccurrences (l : list string) : list string :=
  match l with
  | [] => []
  | c :: rest =>
      c :: List.filter (λ d, negb (String.eqb d c)) (firstOccurrences rest)
  end.

(** ** Properties *)

Section StringFacts.

Lemma falsy_true (s : string) : falsy s = true ↔ s = ""%string.
Proof. unfold falsy. apply String.eqb_eq. Qed.

Lemma falsy_length (s : string) : falsy s = (String.length s =? 0)%nat.
Proof. destruct s; reflexivity. Qed.

Lemma length_two_not_falsy (s : string) :
  (String.length s =? 2)%nat = true → falsy s = false.
Proof. destruct s; [discriminate | reflexivity]. Qed.

Lemma length_two_split (s : string) :
  String.length s = 2%nat → ∃ a b, s = String a (String b EmptyString).
Proof.
  destruct s as [|a [|b [|c s]]]; simpl; try discriminate.
  intros _. by exists a, b.
Qed.

End StringFacts.

(** *** The Mendelian loop *)

Section Mendelian.

Lemma mendelianStep_cases (st : MendelianState) (e : GenotypeEntry) :
  mendelianStep st e =
  if mendelianChecked e then
    if trioConsistent e then (st.1.1 + 1, st.1.2, st.2)
    else (st.1.1, st.1.2 + 1, st.2 ++ [e])
  else st.
Proof.
  destruct st as [[c i] ies].
  unfold mendelianStep, mendelianChecked, trioConsistent.
  rewrite !falsy_length.
  destruct (String.length (father e)) as [|[|[|?]]],
           (String.length (mother e)) as [|[|[|?]]],
           (String.length (son1 e)) as [|[|[|?]]],
           (String.length (son2 e)) as [|[|[|?]]]; simpl; try done.
  destruct (isConsistent (father e) (mother e) (son1 e)); simpl; [|done].
  by destruct (isConsistent (father e) (mother e) (son2 e)).
Qed.

Lemma mendelian_fold (l : list GenotypeEntry) (c i : Z) (ies : list GenotypeEntry) :
  fold_left mendelianStep l (c, i, ies) =
  (c + consistentCount l,
   i + Z.of_nat (length (inconsistentList l)),
   ies ++ inconsistentList l).
Proof.
  revert c i ies. induction l as [|e l IH]; intros c i ies.
  - unfold consistentCount, inconsistentList. simpl.
    by rewrite !Z.add_0_r, app_nil_r.
  - cbn [fold_left]. rewrite mendelianStep_cases. cbn [fst snd].
    unfold consistentCount, inconsistentList in *. cbn [List.filter].
    destruct (mendelianChecked e); cbn [andb].
    + destruct (trioConsistent e); cbn [negb]; rewrite IH; cbn [length].
      * repeat match goal with |- (_, _) = (_, _) => f_equal end; lia.
      * rewrite <- app_assoc. cbn [app].
        repeat match goal with |- (_, _) = (_, _) => f_equal end; lia.
    + apply IH.
Qed.

Lemma filter_filter_andb {A : Type} (p q : A → bool) (l : list A) :
  List.filter p (List.filter q l) = List.filter (λ x, q x && p x) l.
Proof.
  induction l as [|x l IH]; [done|]. cbn [List.filter].
  destruct (q x); cbn [andb List.filter]; [|done].
  destruct (p x); by rewrite IH.
Qed.

Lemma analyzeMendelianConsistency_eq (entries : list GenotypeEntry) :
  analyzeMendelianConsistency entries =
  let autosomal := List.filter isAutosomal entries in
  {| MendelianResult.totalSNPs :=
       consistentCount autosomal + Z.of_nat (length (inconsistentList autosomal));
     MendelianResult.consistent := consistentCount autosomal;
     MendelianResult.inconsistent := Z.of_nat (length (inconsistentList autosomal));
     MendelianResult.inconsistentEntries := inconsistentList autosomal |}.
Proof.
  unfold analyzeMendelianConsistency. rewrite mendelian_fold.
  cbn [app]. by rewrite !Z.add_0_l.
Qed.

(** C7.  For every sequence of records the Mendelian report has
    [totalSNPs = consistent + inconsistent] with both counts
    non-negative.  The two counts are the numbers of autosomal records
    that pass the guards of the loop and are, respectively are not,
    consistent for both children, and the listed records are the latter
    in input order: a record that fails a guard adds to neither count,
    whatever the length of the input. *)
Theorem mendelian_total_is_sum (entries : list GenotypeEntry) :
  let r := analyzeMendelianConsistency entries in
  MendelianResult.totalSNPs r =
    MendelianResult.consistent r + MendelianResult.inconsistent r ∧
  0 ≤ MendelianResult.consistent r ∧
  0 ≤ MendelianResult.inconsistent r ∧
  MendelianResult.consistent r =
    Z.of_nat (length (List.filter
      (λ e, isAutosomal e && (mendelianChecked e && trioConsistent e)) entries)) ∧
  MendelianResult.inconsistent r =
    Z.of_nat (length (MendelianResult.inconsistentEntries r)) ∧
  MendelianResult.inconsistentEntries r =
    List.filter
      (λ e, isAutosomal e && (mendelianChecked e && negb (trioConsistent e)))
      entries.
Proof.
  rewrite analyzeMendelianConsistency_eq. cbn zeta.
  cbn [MendelianResult.totalSNPs MendelianResult.consistent
       MendelianResult.inconsistent MendelianResult.inconsistentEntries].
  unfold consistentCount, inconsistentList. rewrite !filter_filter_andb.
  repeat split; lia.
Qed.

End Mendelian.

(** *** The trio predicate *)

Section TrioPredicate.

Lemma arrayIncludes_pair (p0 p1 c : ascii) :
  arrayIncludes [p0; p1] (Some c) = true ↔ c = p0 ∨ c = p1.
Proof.
  cbn [arrayIncludes existsb]. rewrite orb_false_r, orb_true_iff.
  by rewrite !Ascii.eqb_eq.
Qed.

Lemma fromParent_pair (p0 p1 c0 c1 : ascii) (i : nat) (c : ascii) :
  String.get i (String c0 (String c1 EmptyString)) = Some c →
  fromParent (String p0 (String p1 EmptyString))
             (String c0 (String c1 EmptyString)) i ↔ c = p0 ∨ c = p1.
Proof.
  intros Hc. unfold fromParent. split.
  - intros (a & Ha & Hp). rewrite Hc in Ha. injection Ha as <-.
    cbn [String.get] in Hp. destruct Hp as [[= ->]|[= ->]]; tauto.
  - intros Hp. exists c. split; [done|]. cbn [String.get].
    destruct Hp as [->| ->]; tauto.
Qed.

(** C4.  When father, mother and child are two characters each, the child
    is judged consistent exactly when its first allele is one of the
    father's and its second one of the mother's, or its first allele is one
    of the mother's and its second one of the father's.  With father AG and
    mother CT the children AC and GT are consistent and CC is not. *)
Theorem isConsistent_iff_allele_origin :
  (∀ father mother child : string,
     String.length father = 2%nat →
     String.length mother = 2%nat →
     String.length child = 2%nat →
     isConsistent father mother child = true ↔
       (fromParent father child 0 ∧ fromParent mother child 1) ∨
       (fromParent mother child 0 ∧ fromParent father child 1)) ∧
  isConsistent "AG" "CT" "AC" = true ∧
  isConsistent "AG" "CT" "GT" = true ∧
  isConsistent "AG" "CT" "CC" = false.
Proof.
  split; [|by vm_compute].
  intros father mother child
    (f0 & f1 & ->)%length_two_split (m0 & m1 & ->)%length_two_split
    (c0 & c1 & ->)%length_two_split.
  rewrite !(fromParent_pair _ _ c0 c1 0 c0), !(fromParent_pair _ _ c0 c1 1 c1)
    by done.
  unfold isConsistent, split. cbn [list_ascii_of_string lookup list_lookup].
  rewrite <- !arrayIncludes_pair.
  destruct (arrayIncludes [f0; f1] (Some c0)), (arrayIncludes [m0; m1] (Some c1)),
           (arrayIncludes [m0; m1] (Some c0)), (arrayIncludes [f0; f1] (Some c1));
    cbn [andb]; intuition discriminate.
Qed.

Lemma isConsistent_iff_allele_origin_witness :
  isConsistent "AA" "AG" "GA" = true ↔
    (fromParent "AA" "GA" 0 ∧ fromParent "AG" "GA" 1) ∨
    (fromParent "AG" "GA" 0 ∧ fromParent "AA" "GA" 1).
Proof.
  apply (proj1 isConsistent_iff_allele_origin "AA" "AG" "GA")%string;
    reflexivity.
Defined.

End TrioPredicate.

(** *** The mitochondrial loop *)

Section Mitochondrial.

Lemma mitochondrialStep_cases (st : MitochondrialState) (e : GenotypeEntry) :
  mitochondrialStep st e =
  if mitochondrialChecked e then
    if String.eqb (mother e) (son1 e) && String.eqb (mother e) (son2 e)
    then (st.1.1 + 1, st.1.2, st.2)
    else (st.1.1, st.1.2 + 1, st.2 ++ [e])
  else st.
Proof.
  destruct st as [[ma mi] mes]. unfold mitochondrialStep, mitochondrialChecked.
  rewrite <- !falsy_length.
  destruct (falsy (mother e)), (falsy (son1 e)), (falsy (son2 e)); done.
Qed.

Lemma mitochondrialStep_father (st : MitochondrialState) (e e' : GenotypeEntry) :
  sameButFather e e' →
  (mitochondrialStep st e).1 = (mitochondrialStep st e').1.
Proof.
  intros (_ & _ & _ & H1 & H2 & Hm). rewrite !mitochondrialStep_cases.
  unfold mitochondrialChecked. rewrite H1, H2, Hm.
  destruct (negb _ && negb _ && negb _); [|done].
  by destruct (_ && _).
Qed.

Lemma mitochondrial_fold_father (l l' : list GenotypeEntry)
    (st st' : MitochondrialState) :
  Forall2 sameButFather l l' → st.1 = st'.1 →
  (fold_left mitochondrialStep l st).1 = (fold_left mitochondrialStep l' st').1.
Proof.
  intros Hl. revert st st'.
  induction Hl as [|e e' l l' He Hl IH]; intros st st' Hst; [done|].
  cbn [fold_left]. apply IH.
  rewrite (mitochondrialStep_father st e e' He).
  rewrite !mitochondrialStep_cases.
  destruct st as [[ma mi] mes], st' as [[ma' mi'] mes']. cbn [fst snd] in *.
  injection Hst as -> ->.
  destruct (mitochondrialChecked e'); [|done].
  by destruct (_ && _).
Qed.

Lemma filter_isMT_father (l l' : list GenotypeEntry) :
  Forall2 sameButFather l l' →
  Forall2 sameButFather (List.filter isMT l) (List.filter isMT l').
Proof.
  induction 1 as [|e e' l l' He Hl IH]; [constructor|].
  cbn [List.filter].
  assert (isMT e = isMT e') as -> by (unfold isMT; by rewrite (proj1 (proj2 He))).
  destruct (isMT e'); [by constructor | done].
Qed.

Lemma analyzeMitochondrial_counts (entries : list GenotypeEntry) :
  let st := fold_left mitochondrialStep (List.filter isMT entries) (0, 0, []) in
  MitochondrialResult.matches (analyzeMitochondrial entries) = st.1.1 ∧
  MitochondrialResult.mismatches (analyzeMitochondrial entries) = st.1.2 ∧
  MitochondrialResult.total (analyzeMitochondrial entries) = st.1.1 + st.1.2.
Proof.
  unfold analyzeMitochondrial.
  by destruct (fold_left _ _ _) as [[ma mi] mes].
Qed.

(** C6.  A mitochondrial record whose mother, son1 and son2 are all
    non-empty counts as a match exactly when the mother's string equals
    son1's and son2's; it is string equality, so AG against GA is a
    mismatch.  The father is never read: two record sequences that differ
    only in the fathers' genotypes give the same match, mismatch and total
    counts. *)
Theorem mitochondrial_exact_match_ignores_father :
  (∀ e : GenotypeEntry,
     isMT e = true → mitochondrialChecked e = true →
     analyzeMitochondrial [e] =
       if decide (mother e = son1 e ∧ mother e = son2 e)
       then MitochondrialResult.mk 1 1 0 []
       else MitochondrialResult.mk 1 0 1 [e]) ∧
  (∀ entries entries' : list GenotypeEntry,
     Forall2 sameButFather entries entries' →
     let r := analyzeMitochondrial entries in
     let r' := analyzeMitochondrial entries' in
     MitochondrialResult.matches r' = MitochondrialResult.matches r ∧
     MitochondrialResult.mismatches r' = MitochondrialResult.mismatches r ∧
     MitochondrialResult.total r' = MitochondrialResult.total r) ∧
  analyzeMitochondrial [mkEntry "i1" "MT" 73 "" "A" "A" "A"] =
    MitochondrialResult.mk 1 1 0 [] ∧
  analyzeMitochondrial [mkEntry "i1" "MT" 73 "" "G" "A" "A"] =
    MitochondrialResult.mk 1 0 1 [mkEntry "i1" "MT" 73 "" "G" "A" "A"] ∧
  analyzeMitochondrial [mkEntry "i1" "MT" 73 "" "GA" "AG" "AG"] =
    MitochondrialResult.mk 1 0 1 [mkEntry "i1" "MT" 73 "" "GA" "AG" "AG"].
Proof.
  split; [|split; [|by vm_compute]].
  - intros e Hmt Hch. unfold analyzeMitochondrial. cbn [List.filter].
    rewrite Hmt. cbn [fold_left]. rewrite mitochondrialStep_cases, Hch.
    cbn [fst snd app].
    destruct (decide _) as [[H1 H2]|Hne].
    + rewrite <- H1, <- H2, String.eqb_refl. done.
    + destruct (String.eqb_spec (mother e) (son1 e)) as [H1|H1];
        destruct (String.eqb_spec (mother e) (son2 e)) as [H2|H2];
        cbn [andb]; try done.
      by destruct Hne.
  - intros entries entries' Hl r r'. subst r r'.
    destruct (analyzeMitochondrial_counts entries) as (-> & -> & ->).
    destruct (analyzeMitochondrial_counts entries') as (-> & -> & ->).
    pose proof (mitochondrial_fold_father _ _ (0, 0, []) (0, 0, [])
                  (filter_isMT_father _ _ Hl) eq_refl) as Heq.
    rewrite Heq. done.
Qed.

Lemma mitochondrial_exact_match_ignores_father_witness :
  analyzeMitochondrial [mkEntry "i2" "MT" 152 "T" "C" "C" "C"] =
    MitochondrialResult.mk 1 1 0 [] ∧
  MitochondrialResult.matches
    (analyzeMitochondrial [mkEntry "i2" "MT" 152 "T" "C" "C" "C";
                           mkEntry "i3" "MT" 195 "" "C" "T" "T"]) =
  MitochondrialResult.matches
    (analyzeMitochondrial [mkEntry "i2" "MT" 152 "" "C" "C" "C";
                           mkEntry "i3" "MT" 195 "CC" "C" "T" "T"]).
Proof.
  destruct mitochondrial_exact_match_ignores_father as (Hverdict & Hfather & _).
  split.
  - exact (Hverdict (mkEntry "i2" "MT" 152 "T" "C" "C" "C") eq_refl eq_refl).
  - refine (proj1 (Hfather
      [mkEntry "i2" "MT" 152 "" "C" "C" "C"; mkEntry "i3" "MT" 195 "CC" "C" "T" "T"]
      [mkEntry "i2" "MT" 152 "T" "C" "C" "C"; mkEntry "i3" "MT" 195 "" "C" "T" "T"]
      _)).
    repeat constructor.
Defined.

End Mitochondrial.

(** *** Numbers *)

Section NumberFacts.

Lemma Qeq_bool_inject_Z (z : Z) : Qeq_bool (inject_Z z) 0 = (z =? 0).
Proof. unfold Qeq_bool. cbn. rewrite Z.mul_1_r. by destruct z. Qed.

Lemma div_Num_ofZ (q : Q) (z : Z) :
  z ≠ 0 →
  Number.div (Number.Num q) (Number.ofZ z) = Number.Num (Qred (q / inject_Z z)).
Proof.
  intros Hz. unfold Number.div, Number.ofZ. rewrite Qeq_bool_inject_Z.
  by destruct (Z.eqb_spec z 0).
Qed.

Lemma mul_Num_ofZ (q : Q) (z : Z) :
  Number.mul (Number.Num q) (Number.ofZ z) = Number.Num (Qred (q * inject_Z z)).
Proof. reflexivity. Qed.

Lemma Qltb_true (p q : Q) : Number.Qltb p q = true ↔ (p < q)%Q.
Proof.
  unfold Number.Qltb. rewrite negb_true_iff, <- not_true_iff_false, Qle_bool_iff.
  split; [apply Qnot_le_lt | apply Qlt_not_le].
Qed.

Lemma lt_Num (p q : Q) :
  Number.lt (Number.Num p) (Number.Num q) = true ↔ (p < q)%Q.
Proof. apply Qltb_true. Qed.

Lemma le_Num (p q : Q) :
  Number.le (Number.Num p) (Number.Num q) = true ↔ (p <= q)%Q.
Proof. apply Qle_bool_iff. Qed.

End NumberFacts.

(** *** The sibling loop *)

Section Sibling.

Lemma sort_pair (a b : ascii) :
  sort [a; b] = if charLeb a b then [a; b] else [b; a].
Proof. reflexivity. Qed.

Ltac ascii_cases :=
  repeat (match goal with
          | |- context [Ascii.eqb ?x ?y] =>
              destruct (Ascii.eqb_spec x y); subst; try congruence
          end; cbv -[Ascii.eqb Z.le Z.lt not]).

Lemma sharedAlleles_pair (a b c d : ascii) :
  let s1 := String a (String b EmptyString) in
  let s2 := String c (String d EmptyString) in
  sharedAlleles s1 s2 = consumeCount (sort (split s1)) (sort (split s2)) ∧
  sharedAlleles s1 s2 = consumeCount (split s1) (split s2) ∧
  sharedAlleles s1 s2 = sharedAlleles s2 s1 ∧
  0 ≤ sharedAlleles s1 s2 ≤ 2 ∧
  (sharedAlleles s1 s2 = 2 ↔ (a = c ∧ b = d) ∨ (a = d ∧ b = c)) ∧
  (sharedAlleles s1 s2 = 0 ↔ a ≠ c ∧ a ≠ d ∧ b ≠ c ∧ b ≠ d).
Proof.
  cbn zeta. unfold sharedAlleles, split. cbn [list_ascii_of_string].
  rewrite !sort_pair.
  destruct (charLeb a b), (charLeb c d); cbv -[Ascii.eqb Z.le Z.lt not];
    ascii_cases;
    repeat split; try lia; try congruence; try tauto;
    try (intros [[? ?]|[? ?]]; congruence);
    try (intros (? & ? & ? & ?); congruence);
    try (intros; left; split; congruence);
    try (intros; right; split; congruence).
Qed.

Lemma siblingStep_cases (st : SiblingState) (e : GenotypeEntry) :
  siblingStep st e =
  if siblingChecked e then
    (Number.add st.1
       (Number.div (Number.ofZ (sharedAlleles (son1 e) (son2 e))) (Number.ofZ 2)),
     st.2 + 1)
  else st.
Proof.
  destruct st as [matches total]. unfold siblingStep, siblingChecked.
  rewrite !falsy_length.
  by destruct (String.length (son1 e)) as [|[|[|?]]],
              (String.length (son2 e)) as [|[|[|?]]].
Qed.

Lemma siblingChecked_lengths (e : GenotypeEntry) :
  siblingChecked e = true →
  String.length (son1 e) = 2%nat ∧ String.length (son2 e) = 2%nat.
Proof.
  unfold siblingChecked. rewrite andb_true_iff, !Nat.eqb_eq. tauto.
Qed.

Lemma siblingStep_swapSons (st : SiblingState) (e : GenotypeEntry) :
  siblingStep st (swapSons e) = siblingStep st e.
Proof.
  rewrite !siblingStep_cases. unfold siblingChecked. cbn [swapSons son1 son2].
  rewrite (andb_comm (String.length (son2 e) =? 2)%nat).
  destruct (_ && _) eqn:Hch; [|done].
  destruct (siblingChecked_lengths e Hch) as
    [(a & b & Ha)%length_two_split (c & d & Hc)%length_two_split].
  rewrite Ha, Hc.
  by rewrite (proj1 (proj2 (proj2 (sharedAlleles_pair a b c d)))).
Qed.

Lemma sibling_fold_Num (l : list GenotypeEntry) (q : Q) (total : Z) :
  ∃ q', (fold_left siblingStep l (Number.Num q, total)).1 = Number.Num q'.
Proof.
  revert q total. induction l as [|e l IH]; intros q total; [by exists q|].
  cbn [fold_left]. rewrite siblingStep_cases. cbn [fst snd].
  destruct (siblingChecked e); [|apply IH].
  change (Number.ofZ (sharedAlleles (son1 e) (son2 e)))
    with (Number.Num (inject_Z (sharedAlleles (son1 e) (son2 e)))).
  rewrite div_Num_ofZ by done. apply IH.
Qed.

Lemma analyzeSiblingSharing_eq (entries : list GenotypeEntry) :
  let st := fold_left siblingStep (List.filter isAutosomal entries)
                      (Number.ofZ 0, 0) in
  analyzeSiblingSharing entries =
  {| SiblingComparison.totalSNPs := st.2;
     SiblingComparison.matches := st.1;
     SiblingComparison.matchPercentage :=
       if st.2 >? 0
       then Number.mul (Number.div st.1 (Number.ofZ st.2)) (Number.ofZ 100)
       else Number.ofZ 0 |}.
Proof.
  unfold analyzeSiblingSharing. by destruct (fold_left _ _ _) as [matches total].
Qed.

(** C5.  For two children of two characters each the shared-allele count is
    the multiset consumption over the two sorted pairs: each allele of son1
    takes at most one equal allele of son2.  It lies between 0 and 2, is 2
    exactly when the pairs are equal up to order and 0 exactly when they
    have no allele in common.  A checked autosomal record adds half of it
    to [matches] and one to [totalSNPs]; so AA against AA adds 1, AA
    against AG adds 1/2, AA against GG adds 0 and AG against GA adds 1. *)
Theorem sibling_ibs_multiset_consumption :
  (∀ a b c d : ascii,
     let s1 := String a (String b EmptyString) in
     let s2 := String c (String d EmptyString) in
     sharedAlleles s1 s2 = consumeCount (sort (split s1)) (sort (split s2)) ∧
     0 ≤ sharedAlleles s1 s2 ≤ 2 ∧
     (sharedAlleles s1 s2 = 2 ↔ (a = c ∧ b = d) ∨ (a = d ∧ b = c)) ∧
     (sharedAlleles s1 s2 = 0 ↔ a ≠ c ∧ a ≠ d ∧ b ≠ c ∧ b ≠ d)) ∧
  (∀ (entries : list GenotypeEntry) (e : GenotypeEntry),
     isAutosomal e = true →
     String.length (son1 e) = 2%nat → String.length (son2 e) = 2%nat →
     let r := analyzeSiblingSharing entries in
     let r' := analyzeSiblingSharing (entries ++ [e]) in
     SiblingComparison.matches r' =
       Number.add (SiblingComparison.matches r)
         (Number.div (Number.ofZ (sharedAlleles (son1 e) (son2 e))) (Number.ofZ 2)) ∧
     SiblingComparison.totalSNPs r' = SiblingComparison.totalSNPs r + 1) ∧
  SiblingComparison.matches
    (analyzeSiblingSharing [mkEntry "rs1" "1" 100 "" "AA" "AA" ""]) =
    Number.Num 1 ∧
  SiblingComparison.matches
    (analyzeSiblingSharing [mkEntry "rs1" "1" 100 "" "AA" "AG" ""]) =
    Number.Num (1 # 2) ∧
  SiblingComparison.matches
    (analyzeSiblingSharing [mkEntry "rs1" "1" 100 "" "AA" "GG" ""]) =
    Number.Num 0 ∧
  SiblingComparison.matches
    (analyzeSiblingSharing [mkEntry "rs1" "1" 100 "" "AG" "GA" ""]) =
    Number.Num 1.
Proof.
  split; [|split; [|by vm_compute]].
  - intros a b c d s1 s2. subst s1 s2.
    destruct (sharedAlleles_pair a b c d) as (H1 & _ & _ & H4 & H5 & H6).
    done.
  - intros entries e Haut H1 H2 r r'. subst r r'.
    rewrite !analyzeSiblingSharing_eq. cbn zeta.
    cbn [SiblingComparison.matches SiblingComparison.totalSNPs].
    rewrite List.filter_app. cbn [List.filter]. rewrite Haut.
    rewrite fold_left_app. cbn [fold_left]. rewrite siblingStep_cases.
    unfold siblingChecked. rewrite H1, H2. done.
Qed.

Lemma sibling_ibs_multiset_consumption_witness :
  SiblingComparison.matches
    (analyzeSiblingSharing
       ([mkEntry "rs1" "1" 100 "" "AA" "AG" ""] ++
        [mkEntry "rs2" "7" 250 "" "CT" "TC" ""])) =
  Number.add
    (SiblingComparison.matches
       (analyzeSiblingSharing [mkEntry "rs1" "1" 100 "" "AA" "AG" ""]))
    (Number.div (Number.ofZ (sharedAlleles "CT" "TC")) (Number.ofZ 2)).
Proof.
  exact (proj1 (proj1 (proj2 sibling_ibs_multiset_consumption)
                  [mkEntry "rs1" "1" 100 "" "AA" "AG" ""]
                  (mkEntry "rs2" "7" 250 "" "CT" "TC" "")
                  eq_refl eq_refl eq_refl)).
Defined.

Lemma isAutosomal_swapSons (e : GenotypeEntry) :
  isAutosomal (swapSons e) = isAutosomal e.
Proof. reflexivity. Qed.

Lemma sibling_fold_swapSons (l : list GenotypeEntry) (st : SiblingState) :
  fold_left siblingStep (List.filter isAutosomal (map swapSons l)) st =
  fold_left siblingStep (List.filter isAutosomal l) st.
Proof.
  revert st. induction l as [|e l IH]; intros st; [done|].
  cbn [map List.filter]. rewrite isAutosomal_swapSons.
  destruct (isAutosomal e); [|apply IH].
  cbn [fold_left]. rewrite siblingStep_swapSons. apply IH.
Qed.

(** C8.  Exchanging son1 and son2 in every record leaves the whole
    sibling-sharing report unchanged: [matches], [totalSNPs] and
    [matchPercentage]. *)
Theorem sibling_sharing_symmetric (entries : list GenotypeEntry) :
  let r := analyzeSiblingSharing entries in
  let r' := analyzeSiblingSharing (map swapSons entries) in
  SiblingComparison.matches r' = SiblingComparison.matches r ∧
  SiblingComparison.totalSNPs r' = SiblingComparison.totalSNPs r ∧
  SiblingComparison.matchPercentage r' = SiblingComparison.matchPercentage r.
Proof.
  cbn zeta. unfold analyzeSiblingSharing.
  by rewrite sibling_fold_swapSons.
Qed.

End Sibling.

(** *** The haplogroup classifier *)

Section Haplogroup.

Context (mtEntries : gmap Z string).

Lemma markers_fold_bounds (ms : list Marker.t) (matches total : Z) :
  0 ≤ matches ≤ total →
  let r := fold_left (markerStep mtEntries) ms (matches, total) in
  0 ≤ r.1 ≤ r.2.
Proof.
  revert matches total. induction ms as [|mk ms IH]; intros matches total Hb.
  - done.
  - cbn [fold_left].
    assert (0 ≤ (markerStep mtEntries (matches, total) mk).1
              ≤ (markerStep mtEntries (matches, total) mk).2) as Hstep.
    { unfold markerStep.
      destruct (mtEntries !! Marker.position mk) as [val|]; [|done].
      destruct (negb (falsy val)); [|done].
      destruct (includes val (Marker.allele mk)); cbn [fst snd]; lia. }
    destruct (markerStep mtEntries (matches, total) mk) as [matches' total'].
    by apply IH.
Qed.

Lemma rule_counts_bounds (rule : HaplogroupRule.t) :
  0 ≤ ruleMatches mtEntries rule ≤ ruleTotal mtEntries rule.
Proof. apply (markers_fold_bounds _ 0 0). lia. Qed.

Lemma percentageOf_Num (matches total : Z) :
  0 < total →
  percentageOf matches total =
  Number.Num (Qred (Qred (inject_Z matches / inject_Z total) * inject_Z 100)).
Proof.
  intros Ht. unfold percentageOf.
  change (Number.ofZ matches) with (Number.Num (inject_Z matches)).
  rewrite div_Num_ofZ by lia. apply mul_Num_ofZ.
Qed.

Lemma scoreOf_Num (matches : Z) (p : Q) :
  scoreOf matches (Number.Num p) =
  Number.Num (Qred (Qred (inject_Z matches * inject_Z 100) + p)).
Proof. reflexivity. Qed.

Lemma candidate_score (rule : HaplogroupRule.t) :
  isCandidate mtEntries rule = true →
  ∃ p s : Q,
    rulePercentage mtEntries rule = Number.Num p ∧
    ruleScore mtEntries rule = Number.Num s ∧
    (p == inject_Z (ruleMatches mtEntries rule) /
          inject_Z (ruleTotal mtEntries rule) * 100)%Q ∧
    (s == inject_Z (ruleMatches mtEntries rule) * 100 + p)%Q ∧
    (50 <= p)%Q ∧ (p <= 100)%Q ∧ (0 < s)%Q.
Proof.
  unfold isCandidate. intros [Ht Hge]%andb_true_iff.
  apply Z.gtb_lt in Ht.
  pose proof (rule_counts_bounds rule) as [Hm0 Hmt].
  unfold ruleScore. unfold rulePercentage in *.
  rewrite percentageOf_Num in * by done. rewrite scoreOf_Num.
  eexists _, _. split; [reflexivity|]. split; [reflexivity|].
  apply le_Num in Hge.
  rewrite Zle_Qle in Hm0, Hmt. rewrite Zlt_Qlt in Ht.
  change (inject_Z 0) with 0%Q in *.
  set (M := inject_Z (ruleMatches mtEntries rule)) in *.
  set (T := inject_Z (ruleTotal mtEntries rule)) in *.
  assert (M / T <= 1)%Q as Hq.
  { apply Qle_shift_div_r; [done|]. by rewrite Qmult_1_l. }
  rewrite !Qred_correct in *.
  change (inject_Z 100) with 100%Q in *. change (inject_Z 50) with 50%Q in *.
  repeat split; try reflexivity; try lra.
Qed.

Lemma ruleStep_cases (bestMatch : BestMatch.t) (rule : HaplogroupRule.t) :
  ruleStep mtEntries bestMatch rule =
  if isCandidate mtEntries rule &&
     Number.gt (ruleScore mtEntries rule)
               (scoreOf (BestMatch.matches bestMatch)
                        (BestMatch.percentage bestMatch))
  then bestMatchOf mtEntries rule
  else bestMatch.
Proof.
  unfold bestMatchOf, ruleStep, isCandidate, ruleScore.
  unfold rulePercentage, ruleMatches, ruleTotal.
  destruct (countMarkers mtEntries rule) as [matches total]. cbn [fst snd].
  destruct (total >? 0); cbn [andb]; [|done].
  destruct (Number.ge _ _); cbn [andb]; [|done].
  by destruct (Number.gt _ _).
Qed.

Lemma initial_score :
  scoreOf (BestMatch.matches initialBestMatch)
          (BestMatch.percentage initialBestMatch) = Number.Num 0.
Proof. reflexivity. Qed.

Lemma bestMatchOf_score (rule : HaplogroupRule.t) :
  scoreOf (BestMatch.matches (bestMatchOf mtEntries rule))
          (BestMatch.percentage (bestMatchOf mtEntries rule)) =
  ruleScore mtEntries rule.
Proof. reflexivity. Qed.

Lemma selected_nil : selected mtEntries [] initialBestMatch.
Proof. left. split; [done | constructor]. Qed.

Lemma selected_snoc (rules : list HaplogroupRule.t) (bestMatch : BestMatch.t)
    (rule : HaplogroupRule.t) :
  selected mtEntries rules bestMatch →
  selected mtEntries (rules ++ [rule]) (ruleStep mtEntries bestMatch rule).
Proof.
  intros Hsel. rewrite ruleStep_cases.
  destruct (isCandidate mtEntries rule) eqn:Hc; cbn [andb].
  - destruct (candidate_score rule Hc) as (p & s & Hp & Hs & _ & _ & _ & _ & Hpos).
    destruct Hsel as [[-> Hnone]|(j & best & (Hj & Hbc & Hle & Hlt) & ->)].
    + rewrite initial_score, Hs. unfold Number.gt.
      rewrite (proj2 (lt_Num 0 s) Hpos).
      right. exists (length rules), rule. split; [|done].
      split; [by rewrite lookup_app_r, Nat.sub_diag by lia|].
      split; [done|].
      assert (∀ (k : nat) r, rules !! k = Some r →
                isCandidate mtEntries r = true → False) as Hno.
      { intros k r Hk Hr. rewrite Forall_forall in Hnone.
        apply list_elem_of_lookup_2 in Hk.
        specialize (Hnone r Hk). congruence. }
      split.
      * intros k r Hk Hr.
        destruct (decide (k < length rules)%nat) as [Hlt|Hge].
        -- rewrite lookup_app_l in Hk by done. destruct (Hno k r Hk Hr).
        -- rewrite lookup_app_r in Hk by lia.
           destruct (k - length rules)%nat; [|done].
           injection Hk as <-. rewrite Hs. apply le_Num. lra.
      * intros k r Hlt Hk Hr. rewrite lookup_app_l in Hk by done.
        destruct (Hno k r Hk Hr).
    + rewrite bestMatchOf_score, Hs.
      destruct (candidate_score best Hbc) as (pb & sb & _ & Hsb & _).
      rewrite Hsb in *. unfold Number.gt.
      pose proof (lookup_lt_Some _ _ _ Hj) as Hjlen.
      destruct (Number.lt (Number.Num sb) (Number.Num s)) eqn:Hcmp.
      * apply lt_Num in Hcmp.
        right. exists (length rules), rule. split; [|done].
        split; [by rewrite lookup_app_r, Nat.sub_diag by lia|].
        split; [done|]. rewrite Hs. split.
        -- intros k r Hk Hr.
           destruct (decide (k < length rules)%nat) as [Hk'|Hk'].
           ++ rewrite lookup_app_l in Hk by done.
              specialize (Hle k r Hk Hr).
              destruct (candidate_score r Hr) as (pr & sr & _ & Hsr & _).
              rewrite Hsr in *. apply le_Num in Hle. apply le_Num. lra.
           ++ rewrite lookup_app_r in Hk by lia.
              destruct (k - length rules)%nat; [|done].
              injection Hk as <-. rewrite Hs. apply le_Num. lra.
        -- intros k r Hk' Hk Hr. rewrite lookup_app_l in Hk by done.
           specialize (Hle k r Hk Hr).
           destruct (candidate_score r Hr) as (pr & sr & _ & Hsr & _).
           rewrite Hsr in *. apply le_Num in Hle. apply lt_Num. lra.
      * right. exists j, best. split; [|done].
        split; [by rewrite lookup_app_l|].
        split; [done|]. rewrite ?Hsb. split.
        -- intros k r Hk Hr.
           destruct (decide (k < length rules)%nat) as [Hk'|Hk'].
           ++ rewrite lookup_app_l in Hk by done.
              exact (Hle k r Hk Hr).
           ++ rewrite lookup_app_r in Hk by lia.
              destruct (k - length rules)%nat; [|done].
              injection Hk as <-. rewrite Hs. apply le_Num.
              apply Qnot_lt_le. intros Hlt'%lt_Num. congruence.
        -- intros k r Hk' Hk Hr. rewrite lookup_app_l in Hk by lia.
           exact (Hlt k r Hk' Hk Hr).
  - destruct Hsel as [[-> Hnone]|(j & best & (Hj & Hbc & Hle & Hlt) & ->)].
    + left. split; [done|]. apply Forall_app. split; [done|]. by constructor.
    + pose proof (lookup_lt_Some _ _ _ Hj) as Hjlen.
      right. exists j, best. split; [|done].
      split; [by rewrite lookup_app_l|]. split; [done|]. split.
      * intros k r Hk Hr.
        destruct (decide (k < length rules)%nat) as [Hk'|Hk'].
        -- rewrite lookup_app_l in Hk by done. by apply (Hle k r).
        -- rewrite lookup_app_r in Hk by lia.
           destruct (k - length rules)%nat; [|done].
           injection Hk as <-. congruence.
      * intros k r Hk' Hk Hr. rewrite lookup_app_l in Hk by lia.
        by apply (Hlt k r).
Qed.

Lemma selected_fold (done_ rules : list HaplogroupRule.t) (bestMatch : BestMatch.t) :
  selected mtEntries done_ bestMatch →
  selected mtEntries (done_ ++ rules)
           (fold_left (ruleStep mtEntries) rules bestMatch).
Proof.
  revert done_ bestMatch.
  induction rules as [|rule rules IH]; intros done_ bestMatch Hsel.
  - by rewrite app_nil_r.
  - cbn [fold_left]. rewrite (cons_middle rule done_ rules), app_assoc.
    apply IH. by apply selected_snoc.
Qed.

Lemma findBestMatch_selected (rules : list HaplogroupRule.t) :
  selected mtEntries rules (findBestMatch rules mtEntries).
Proof. apply (selected_fold [] rules), selected_nil. Qed.


End Haplogroup.

Section Classifier.

Lemma estimateHaplogroupsWith_eq (rules : list HaplogroupRule.t)
    (entries : list GenotypeEntry) :
  estimateHaplogroupsWith rules entries =
  let bestMatch := findBestMatch rules (gatherMtEntries entries) in
  {| HaplogroupResult.maternal := maternalLabel (BestMatch.haplogroup bestMatch);
     HaplogroupResult.paternal :=
       "Requires advanced Y-tree traversal (External Tool Recommended)";
     HaplogroupResult.details :=
       Some {| Details.matchCount := BestMatch.matches bestMatch;
               Details.totalmarkers := BestMatch.total bestMatch;
               Details.percentage := BestMatch.percentage bestMatch;
               Details.description := Some (BestMatch.description bestMatch) |} |}.
Proof. reflexivity. Qed.

Lemma no_candidate_initial (mtEntries : gmap Z string)
    (rules : list HaplogroupRule.t) :
  forallb (λ rule, negb (isCandidate mtEntries rule)) rules = true →
  findBestMatch rules mtEntries = initialBestMatch.
Proof.
  intros Hnone.
  destruct (findBestMatch_selected mtEntries rules)
    as [[-> _]|(j & best & (Hj & Hc & _) & _)]; [done|].
  rewrite forallb_forall in Hnone.
  apply list_elem_of_lookup_2, list_elem_of_In in Hj.
  specialize (Hnone best Hj). rewrite Hc in Hnone. discriminate.
Qed.

(** C1, as the code has it.  If no rule of the table is a candidate, the
    best match stays the initial one, labelled Undetermined, and the
    classifier returns the maternal label "Undetermined (Try external
    tool)" with [matchCount = 0], [totalmarkers = 0], [percentage = 0] and
    an empty description. *)
Theorem no_candidate_gives_undetermined (rules : list HaplogroupRule.t)
    (entries : list GenotypeEntry) :
  forallb (λ rule, negb (isCandidate (gatherMtEntries entries) rule)) rules = true →
  BestMatch.haplogroup (findBestMatch rules (gatherMtEntries entries)) =
    "Undetermined"%string ∧
  estimateHaplogroupsWith rules entries =
  {| HaplogroupResult.maternal := "Undetermined (Try external tool)";
     HaplogroupResult.paternal :=
       "Requires advanced Y-tree traversal (External Tool Recommended)";
     HaplogroupResult.details :=
       Some {| Details.matchCount := 0;
               Details.totalmarkers := 0;
               Details.percentage := Number.Num 0;
               Details.description := Some ""%string |} |}.
Proof.
  intros Hnone. rewrite estimateHaplogroupsWith_eq. cbn zeta.
  by rewrite (no_candidate_initial _ _ Hnone).
Qed.

Lemma no_candidate_gives_undetermined_witness :
  estimateHaplogroupsWith mtRules
    [mkEntry "i1" "MT" 7028 "" "T" "T" "T"; mkEntry "i2" "MT" 10400 "" "" "" "C"] =
  {| HaplogroupResult.maternal := "Undetermined (Try external tool)";
     HaplogroupResult.paternal :=
       "Requires advanced Y-tree traversal (External Tool Recommended)";
     HaplogroupResult.details :=
       Some {| Details.matchCount := 0;
               Details.totalmarkers := 0;
               Details.percentage := Number.Num 0;
               Details.description := Some ""%string |} |}.
Proof.
  apply (no_candidate_gives_undetermined mtRules
    [mkEntry "i1" "MT" 7028 "" "T" "T" "T"; mkEntry "i2" "MT" 10400 "" "" "" "C"]).
  vm_compute. reflexivity.
Defined.

(** C1, as the specification states it, fails: on the empty input no rule
    is a candidate, yet the label returned is not "Undetermined". *)
Lemma undetermined_label_counterexample :
  forallb (λ rule, negb (isCandidate (gatherMtEntries []) rule)) mtRules = true ∧
  HaplogroupResult.maternal (estimateHaplogroups []) ≠ "Undetermined"%string.
Proof. split; [by vm_compute | by vm_compute]. Qed.

Lemma markers_fold_filter (mtEntries : gmap Z string) (ms : list Marker.t)
    (matches total : Z) :
  fold_left (markerStep mtEntries) ms (matches, total) =
  (matches + Z.of_nat (length (List.filter (markerMatched mtEntries) ms)),
   total + Z.of_nat (length (List.filter (markerTested mtEntries) ms))).
Proof.
  revert matches total. induction ms as [|mk ms IH]; intros matches total.
  - cbn [fold_left List.filter length]. by rewrite !Z.add_0_r.
  - cbn [fold_left List.filter]. unfold markerStep at 2.
    unfold markerMatched at 1, markerTested at 1.
    destruct (mtEntries !! Marker.position mk) as [val|]; [|apply IH].
    destruct (negb (falsy val)); cbn [andb]; [|apply IH].
    destruct (includes val (Marker.allele mk)); rewrite IH; cbn [length];
      f_equal; lia.
Qed.

Lemma rule_counts_filter (mtEntries : gmap Z string) (rule : HaplogroupRule.t) :
  ruleTotal mtEntries rule =
    Z.of_nat (length (List.filter (markerTested mtEntries)
                                  (HaplogroupRule.markers rule))) ∧
  ruleMatches mtEntries rule =
    Z.of_nat (length (List.filter (markerMatched mtEntries)
                                  (HaplogroupRule.markers rule))).
Proof.
  unfold ruleTotal, ruleMatches, countMarkers. rewrite markers_fold_filter.
  cbn [fst snd]. lia.
Qed.




End Classifier.

(** *** The position lookup *)

Section Lookup.

Lemma gatherStep_lookup (mtEntries : gmap Z string) (e : GenotypeEntry) (p : Z) :
  gatherStep mtEntries e !! p =
  if isMT e && negb (falsy (preferredAllele e)) && (position e =? p)
  then Some (preferredAllele e)
  else mtEntries !! p.
Proof.
  unfold gatherStep, isMT.
  destruct (String.eqb (chromosome e) "MT"); cbn [andb]; [|done].
  destruct (negb (falsy (preferredAllele e))); cbn [andb]; [|done].
  destruct (Z.eqb_spec (position e) p) as [->|Hne].
  - apply lookup_insert_eq.
  - by apply lookup_insert_ne.
Qed.

Lemma gatherMtEntries_snoc (entries : list GenotypeEntry) (e : GenotypeEntry) :
  gatherMtEntries (entries ++ [e]) = gatherStep (gatherMtEntries entries) e.
Proof. unfold gatherMtEntries. by rewrite fold_left_app. Qed.

Lemma gatherStep_idempotent (mtEntries : gmap Z string) (e : GenotypeEntry) :
  gatherStep (gatherStep mtEntries e) e = gatherStep mtEntries e.
Proof.
  apply map_eq. intros p. rewrite !gatherStep_lookup.
  by destruct (_ && _ && _).
Qed.

Lemma gather_lookup_last (entries : list GenotypeEntry) (p : Z) :
  match gatherMtEntries entries !! p with
  | Some allele =>
      ∃ (before : list GenotypeEntry) (e : GenotypeEntry)
        (after : list GenotypeEntry),
        entries = before ++ e :: after ∧
        isMT e = true ∧ position e = p ∧
        preferredAllele e = allele ∧ allele ≠ ""%string ∧
        silentAt p after
  | None => silentAt p entries
  end.
Proof.
  induction entries as [|e entries IH] using rev_ind.
  - unfold gatherMtEntries. cbn [fold_left]. rewrite lookup_empty. constructor.
  - rewrite gatherMtEntries_snoc, gatherStep_lookup.
    destruct (isMT e) eqn:Hmt; cbn [andb].
    + destruct (falsy (preferredAllele e)) eqn:Hf; cbn [negb andb].
      * apply falsy_true in Hf.
        destruct (gatherMtEntries entries !! p) as [allele|].
        -- destruct IH as (before & e0 & after & -> & H1 & H2 & H3 & H4 & H5).
           exists before, e0, (after ++ [e]).
           rewrite <- app_assoc. repeat split; try done.
           apply Forall_app. split; [done|]. by constructor.
        -- apply Forall_app. split; [done|]. by constructor.
      * destruct (Z.eqb_spec (position e) p) as [Hp|Hp].
        -- exists entries, e, []. repeat split; try done.
           ++ intros Hempty%falsy_true. congruence.
           ++ constructor.
        -- destruct (gatherMtEntries entries !! p) as [allele|].
           ++ destruct IH as (before & e0 & after & -> & H1 & H2 & H3 & H4 & H5).
              exists before, e0, (after ++ [e]).
              rewrite <- app_assoc. repeat split; try done.
              apply Forall_app. split; [done|]. by constructor.
           ++ apply Forall_app. split; [done|]. by constructor.
    + assert (silentAt p [e]) as He.
      { constructor; [|constructor]. intros Hmt'. congruence. }
      destruct (gatherMtEntries entries !! p) as [allele|].
      * destruct IH as (before & e0 & after & -> & H1 & H2 & H3 & H4 & H5).
        exists before, e0, (after ++ [e]).
        rewrite <- app_assoc. repeat split; try done.
        by apply Forall_app.
      * by apply Forall_app.
Qed.

Lemma gather_duplicate (before after : list GenotypeEntry) (e : GenotypeEntry) :
  gatherMtEntries (before ++ e :: e :: after) =
  gatherMtEntries (before ++ e :: after).
Proof.
  unfold gatherMtEntries. rewrite !fold_left_app. cbn [fold_left].
  by rewrite gatherStep_idempotent.
Qed.

Lemma preferredAllele_called (e : GenotypeEntry) :
  mother e ≠ "--"%string → preferredAllele e = preferredBySpec e.
Proof.
  intros Hne. unfold preferredAllele, preferredBySpec.
  destruct (String.eqb_spec (mother e) "--"); [done|].
  by rewrite andb_true_r.
Qed.

End Lookup.

(** *** Percentages and the empty input *)

Section Guards.

Lemma markers_fold_empty (ms : list Marker.t) (st : Z * Z) :
  fold_left (markerStep ∅) ms st = st.
Proof.
  induction ms as [|mk ms IH]; [done|]. cbn [fold_left].
  assert (markerStep ∅ st mk = st) as ->; [|done].
  unfold markerStep. destruct st as [matches total]. by rewrite lookup_empty.
Qed.

Lemma no_candidate_empty (rules : list HaplogroupRule.t) :
  forallb (λ rule, negb (isCandidate ∅ rule)) rules = true.
Proof.
  apply forallb_forall. intros rule _.
  unfold isCandidate, ruleTotal, countMarkers. by rewrite markers_fold_empty.
Qed.

Lemma bestMatch_percentage (rules : list HaplogroupRule.t)
    (mtEntries : gmap Z string) :
  let b := findBestMatch rules mtEntries in
  Number.isNaN (BestMatch.percentage b) = false ∧
  (BestMatch.total b = 0 → BestMatch.percentage b = Number.Num 0).
Proof.
  cbn zeta.
  destruct (findBestMatch_selected mtEntries rules)
    as [[-> _]|(j & best & (_ & Hc & _) & ->)]; [done|].
  destruct (candidate_score mtEntries best Hc) as (p & s & Hp & _).
  cbn [bestMatchOf BestMatch.percentage BestMatch.total]. rewrite Hp.
  split; [done|]. intros Ht.
  unfold isCandidate in Hc. rewrite Ht in Hc. discriminate.
Qed.

Lemma sibling_percentage (entries : list GenotypeEntry) :
  let r := analyzeSiblingSharing entries in
  Number.isNaN (SiblingComparison.matchPercentage r) = false ∧
  (SiblingComparison.totalSNPs r = 0 →
   SiblingComparison.matchPercentage r = Number.Num 0).
Proof.
  rewrite analyzeSiblingSharing_eq. cbn zeta.
  cbn [SiblingComparison.matchPercentage SiblingComparison.totalSNPs].
  destruct (sibling_fold_Num (List.filter isAutosomal entries) 0 0) as [q Hq].
  change (Number.Num 0, 0) with (Number.ofZ 0, 0) in Hq.
  destruct (fold_left siblingStep _ _) as [matches total].
  cbn [fst snd] in *. subst matches. split.
  - destruct (Z.gtb_spec total 0); [|done].
    by rewrite div_Num_ofZ by lia.
  - by intros ->.
Qed.

(** C9.  On the empty sequence the four analyses return zero counts, and
    the two percentages, [matchPercentage] of the sibling report and
    [percentage] of the haplogroup details, are 0.  For every input both
    percentages are numbers, never NaN: each division is guarded by
    [total > 0], and with a zero denominator the percentage is 0. *)
Theorem empty_input_zero_reports :
  analyzeMendelianConsistency [] = MendelianResult.mk 0 0 0 [] ∧
  analyzeMitochondrial [] = MitochondrialResult.mk 0 0 0 [] ∧
  analyzeSiblingSharing [] =
    SiblingComparison.mk 0 (Number.Num 0) (Number.Num 0) ∧
  (∀ rules : list HaplogroupRule.t,
     HaplogroupResult.details (estimateHaplogroupsWith rules []) =
     Some (Details.mk 0 0 (Number.Num 0) (Some ""%string))) ∧
  (∀ entries : list GenotypeEntry,
     let r := analyzeSiblingSharing entries in
     Number.isNaN (SiblingComparison.matchPercentage r) = false ∧
     (SiblingComparison.totalSNPs r = 0 →
      SiblingComparison.matchPercentage r = Number.Num 0)) ∧
  (∀ (rules : list HaplogroupRule.t) (entries : list GenotypeEntry),
     ∃ d : Details.t,
       HaplogroupResult.details (estimateHaplogroupsWith rules entries) = Some d ∧
       Number.isNaN (Details.percentage d) = false ∧
       (Details.totalmarkers d = 0 → Details.percentage d = Number.Num 0)) ∧
  Number.isNaN (Number.div (Number.ofZ 0) (Number.ofZ 0)) = true.
Proof.
  split; [done|]. split; [done|]. split; [done|].
  split; [|split; [apply sibling_percentage|split; [|done]]].
  - intros rules. rewrite estimateHaplogroupsWith_eq. cbn zeta.
    change (gatherMtEntries []) with (∅ : gmap Z string).
    by rewrite (no_candidate_initial ∅ rules (no_candidate_empty rules)).
  - intros rules entries. rewrite estimateHaplogroupsWith_eq. cbn zeta.
    eexists. split; [reflexivity|].
    apply (bestMatch_percentage rules (gatherMtEntries entries)).
Qed.

Lemma empty_input_zero_reports_witness :
  SiblingComparison.matchPercentage
    (analyzeSiblingSharing [mkEntry "rs5" "X" 300 "A" "AG" "AA" "AG";
                            mkEntry "rs6" "3" 410 "AA" "A" "AG" "AG"]) =
  Number.Num 0.
Proof.
  apply (proj2 (proj1 (proj2 (proj2 (proj2 (proj2 empty_input_zero_reports))))
                  [mkEntry "rs5" "X" 300 "A" "AG" "AA" "AG";
                   mkEntry "rs6" "3" 410 "AA" "A" "AG" "AG"])).
  reflexivity.
Defined.

End Guards.

(** *** The autosomal filter *)

Section AutosomalFilter.

Lemma digitsPrefix_Some (R : Z) (s : string) (v : Z) :
  is_Some (digitsPrefix R s (Some v)).
Proof.
  revert v. induction s as [|c s IH]; intros v; cbn [digitsPrefix]; [done|].
  destruct (radixDigit R c); [apply IH | done].
Qed.

Lemma digitsPrefix_None (R : Z) (s : string) :
  digitsPrefix R s None = None ↔
  match s with
  | String c _ => radixDigit R c = None
  | EmptyString => True
  end.
Proof.
  destruct s as [|c s]; cbn [digitsPrefix]; [done|].
  destruct (radixDigit R c) as [d|]; [|done].
  destruct (digitsPrefix_Some R s (default 0 None * R + d)) as [v ->].
  done.
Qed.

Lemma isNaN_ofInteger (z : Z) : Number.isNaN (Number.ofInteger z) = false.
Proof.
  unfold Number.ofInteger. destruct (Z.abs z <? 2 ^ 53); [done|].
  cbv zeta. by destruct (2 ^ 1024 <=? _).
Qed.

Lemma isNaN_parseInt (s : string) :
  Number.isNaN (parseInt s) = negb (hasNumericPrefix s).
Proof.
  unfold parseInt, hasNumericPrefix.
  destruct (radixAndDigits (dropSign (trimStart s))) as [R digits].
  pose proof (digitsPrefix_None R digits) as Hnone.
  destruct (digitsPrefix R digits None) as [v|];
    [rewrite isNaN_ofInteger|].
  - destruct digits as [|c rest]; [discriminate (proj2 Hnone I)|].
    destruct (radixDigit R c); [done|]. discriminate (proj2 Hnone eq_refl).
  - destruct digits as [|c rest]; [done|].
    by rewrite (proj1 Hnone eq_refl).
Qed.

Lemma isAutosomal_numeric_prefix (e : GenotypeEntry) :
  isAutosomal e = hasNumericPrefix (chromosome e).
Proof.
  unfold isAutosomal. rewrite isNaN_parseInt, negb_involutive.
  destruct (existsb _ _) eqn:Hex; [|done].
  apply existsb_exists in Hex as (label & Hin & ->%String.eqb_eq).
  cbn [In] in Hin. by destruct Hin as [<-|[<-|[<-|[]]]].
Qed.

Lemma unsigned_decimal_numeric_prefix (s : string) :
  isUnsignedDecimal s = true → hasNumericPrefix s = true.
Proof.
  destruct s as [|c rest]; [discriminate|].
  unfold isUnsignedDecimal, split. cbn [falsy String.eqb negb andb
    list_ascii_of_string forallb].
  intros [Hc Hrest]%andb_true_iff.
  destruct c as [[] [] [] [] [] [] [] []]; try discriminate Hc;
    try (vm_compute; reflexivity).
  destruct rest as [|d rest]; [by vm_compute|].
  cbn [forallb] in Hrest. apply andb_true_iff in Hrest as [Hd _].
  destruct d as [[] [] [] [] [] [] [] []]; try discriminate Hd;
    vm_compute; reflexivity.
Qed.

Lemma filter_split_length {A : Type} (p r : A → bool) (l : list A) :
  (length (List.filter (λ x, p x && r x) l) +
   length (List.filter (λ x, p x && negb (r x)) l))%nat =
  length (List.filter p l).
Proof.
  induction l as [|x l IH]; [done|]. cbn [List.filter].
  destruct (p x), (r x); cbn [andb negb length]; lia.
Qed.

End AutosomalFilter.

(** ** Further properties of the analyses *)

Section MendelianAlgebra.

Lemma filter_map_comm {A B : Type} (f : B → bool) (g : A → B) (l : list A) :
  List.filter f (map g l) = map g (List.filter (λ x, f (g x)) l).
Proof.
  induction l as [|x l IH]; [done|]. cbn [map List.filter].
  destruct (f (g x)); cbn [map]; by rewrite IH.
Qed.

Lemma filter_ext_eq {A : Type} (f g : A → bool) (l : list A) :
  (∀ x, f x = g x) → List.filter f l = List.filter g l.
Proof.
  intros Hfg. induction l as [|x l IH]; [done|]. cbn [List.filter].
  by rewrite Hfg, IH.
Qed.

Lemma isConsistent_parents (father mother child : string) :
  isConsistent mother father child = isConsistent father mother child.
Proof.
  unfold isConsistent.
  destruct (arrayIncludes (split father) (split child !! 0%nat)),
           (arrayIncludes (split mother) (split child !! 1%nat)),
           (arrayIncludes (split mother) (split child !! 0%nat)),
           (arrayIncludes (split father) (split child !! 1%nat)); done.
Qed.

(** X1.  The trio predicate does not depend on which parent is called
    father and which mother, for strings of any length, nor on the order
    of the two alleles of a two-character child. *)
Theorem isConsistent_symmetric :
  (∀ father mother child : string,
     isConsistent mother father child = isConsistent father mother child) ∧
  (∀ (father mother : string) (c0 c1 : ascii),
     isConsistent father mother (String c1 (String c0 EmptyString)) =
     isConsistent father mother (String c0 (String c1 EmptyString))).
Proof.
  split; [apply isConsistent_parents|].
  intros father mother c0 c1. unfold isConsistent, split.
  cbn [list_ascii_of_string lookup list_lookup].
  destruct (arrayIncludes (list_ascii_of_string father) (Some c0)),
           (arrayIncludes (list_ascii_of_string mother) (Some c1)),
           (arrayIncludes (list_ascii_of_string mother) (Some c0)),
           (arrayIncludes (list_ascii_of_string father) (Some c1)); done.
Qed.

Lemma mendelian_swapSons (e : GenotypeEntry) :
  isAutosomal (swapSons e) = isAutosomal e ∧
  mendelianChecked (swapSons e) = mendelianChecked e ∧
  trioConsistent (swapSons e) = trioConsistent e.
Proof.
  split; [done|]. unfold mendelianChecked, trioConsistent.
  cbn [swapSons father mother son1 son2]. split.
  - by rewrite <- !andb_assoc, (andb_comm (String.length (son2 e) =? 2)%nat).
  - apply andb_comm.
Qed.

Lemma mendelian_swapParents (e : GenotypeEntry) :
  isAutosomal (swapParents e) = isAutosomal e ∧
  mendelianChecked (swapParents e) = mendelianChecked e ∧
  trioConsistent (swapParents e) = trioConsistent e.
Proof.
  split; [done|]. unfold mendelianChecked, trioConsistent.
  cbn [swapParents father mother son1 son2]. split.
  - by rewrite (andb_comm (String.length (mother e) =? 2)%nat).
  - by rewrite !(isConsistent_parents (father e) (mother e)).
Qed.

Lemma mendelian_map_invariant (g : GenotypeEntry → GenotypeEntry)
    (entries : list GenotypeEntry) :
  (∀ e, isAutosomal (g e) = isAutosomal e ∧
        mendelianChecked (g e) = mendelianChecked e ∧
        trioConsistent (g e) = trioConsistent e) →
  let r := analyzeMendelianConsistency entries in
  let r' := analyzeMendelianConsistency (map g entries) in
  MendelianResult.consistent r' = MendelianResult.consistent r ∧
  MendelianResult.inconsistent r' = MendelianResult.inconsistent r ∧
  MendelianResult.totalSNPs r' = MendelianResult.totalSNPs r ∧
  MendelianResult.inconsistentEntries r' =
    map g (MendelianResult.inconsistentEntries r).
Proof.
  intros Hg. cbn zeta. rewrite !analyzeMendelianConsistency_eq. cbn zeta.
  cbn [MendelianResult.totalSNPs MendelianResult.consistent
       MendelianResult.inconsistent MendelianResult.inconsistentEntries].
  unfold consistentCount, inconsistentList.
  rewrite !filter_filter_andb, !filter_map_comm.
  rewrite (filter_ext_eq
    (λ x, isAutosomal (g x) && (mendelianChecked (g x) && trioConsistent (g x)))
    (λ x, isAutosomal x && (mendelianChecked x && trioConsistent x)))
    by (intros x; destruct (Hg x) as (-> & -> & ->); done).
  rewrite (filter_ext_eq
    (λ x, isAutosomal (g x) &&
          (mendelianChecked (g x) && negb (trioConsistent (g x))))
    (λ x, isAutosomal x && (mendelianChecked x && negb (trioConsistent x))))
    by (intros x; destruct (Hg x) as (-> & -> & ->); done).
  by rewrite !length_map.
Qed.

(** X2.  Exchanging son1 with son2 in every record, or father with mother
    in every record, leaves the three counts of the Mendelian report
    unchanged; the listed inconsistent records are the same records, with
    the exchange applied. *)
Theorem mendelian_counts_invariant_under_swaps (entries : list GenotypeEntry) :
  let r := analyzeMendelianConsistency entries in
  let rs := analyzeMendelianConsistency (map swapSons entries) in
  let rp := analyzeMendelianConsistency (map swapParents entries) in
  (MendelianResult.consistent rs = MendelianResult.consistent r ∧
   MendelianResult.inconsistent rs = MendelianResult.inconsistent r ∧
   MendelianResult.totalSNPs rs = MendelianResult.totalSNPs r ∧
   MendelianResult.inconsistentEntries rs =
     map swapSons (MendelianResult.inconsistentEntries r)) ∧
  (MendelianResult.consistent rp = MendelianResult.consistent r ∧
   MendelianResult.inconsistent rp = MendelianResult.inconsistent r ∧
   MendelianResult.totalSNPs rp = MendelianResult.totalSNPs r ∧
   MendelianResult.inconsistentEntries rp =
     map swapParents (MendelianResult.inconsistentEntries r)).
Proof.
  split.
  - apply (mendelian_map_invariant swapSons), mendelian_swapSons.
  - apply (mendelian_map_invariant swapParents), mendelian_swapParents.
Qed.

End MendelianAlgebra.

Section MitochondrialAlgebra.

Lemma mitochondrial_fold (l : list GenotypeEntry) (ma mi : Z)
    (mes : list GenotypeEntry) :
  fold_left mitochondrialStep l (ma, mi, mes) =
  (ma + matchCount l, mi + Z.of_nat (length (mismatchList l)),
   mes ++ mismatchList l).
Proof.
  revert ma mi mes. induction l as [|e l IH]; intros ma mi mes.
  - unfold matchCount, mismatchList. cbn [List.filter length].
    by rewrite !Z.add_0_r, app_nil_r.
  - cbn [fold_left]. rewrite mitochondrialStep_cases. cbn [fst snd].
    unfold matchCount, mismatchList, mitochondrialMatch in *.
    cbn [List.filter].
    destruct (mitochondrialChecked e); cbn [andb]; [|apply IH].
    destruct (String.eqb (mother e) (son1 e) && String.eqb (mother e) (son2 e));
      cbn [negb]; rewrite IH; cbn [length].
    + repeat match goal with |- (_, _) = (_, _) => f_equal end; lia.
    + rewrite <- app_assoc. cbn [app].
      repeat match goal with |- (_, _) = (_, _) => f_equal end; lia.
Qed.

Lemma analyzeMitochondrial_eq (entries : list GenotypeEntry) :
  analyzeMitochondrial entries =
  let mt := List.filter isMT entries in
  {| MitochondrialResult.total :=
       matchCount mt + Z.of_nat (length (mismatchList mt));
     MitochondrialResult.matches := matchCount mt;
     MitochondrialResult.mismatches := Z.of_nat (length (mismatchList mt));
     MitochondrialResult.mismatchedEntries := mismatchList mt |}.
Proof.
  unfold analyzeMitochondrial. rewrite mitochondrial_fold.
  cbn [app]. by rewrite !Z.add_0_l.
Qed.

(** X3.  The mitochondrial report counts exactly the MT records whose
    mother, son1 and son2 are all non-empty: [matches] those where the
    three strings are equal, [mismatches] the others, which are listed in
    input order.  So [total = matches + mismatches], [mismatches] is the
    length of the list, and [total] never exceeds the number of MT
    records. *)
Theorem mitochondrial_report_counts (entries : list GenotypeEntry) :
  let r := analyzeMitochondrial entries in
  MitochondrialResult.matches r =
    Z.of_nat (length (List.filter
      (λ e, isMT e && (mitochondrialChecked e && mitochondrialMatch e)) entries)) ∧
  MitochondrialResult.mismatchedEntries r =
    List.filter
      (λ e, isMT e && (mitochondrialChecked e && negb (mitochondrialMatch e)))
      entries ∧
  MitochondrialResult.mismatches r =
    Z.of_nat (length (MitochondrialResult.mismatchedEntries r)) ∧
  MitochondrialResult.total r =
    MitochondrialResult.matches r + MitochondrialResult.mismatches r ∧
  0 ≤ MitochondrialResult.total r ≤
    Z.of_nat (length (List.filter isMT entries)).
Proof.
  rewrite analyzeMitochondrial_eq. cbn zeta.
  cbn [MitochondrialResult.total MitochondrialResult.matches
       MitochondrialResult.mismatches MitochondrialResult.mismatchedEntries].
  unfold matchCount, mismatchList.
  split; [by rewrite filter_filter_andb|].
  split; [by rewrite filter_filter_andb|].
  split; [done|]. split; [done|].
  induction (List.filter isMT entries) as [|e l IH]; [done|].
  cbn [List.filter].
  destruct (mitochondrialChecked e); cbn [andb negb]; [|cbn [length]; lia].
  destruct (mitochondrialMatch e); cbn [negb length]; lia.
Qed.

Lemma mitochondrial_swapSons (e : GenotypeEntry) :
  isMT (swapSons e) = isMT e ∧
  mitochondrialChecked (swapSons e) = mitochondrialChecked e ∧
  mitochondrialMatch (swapSons e) = mitochondrialMatch e.
Proof.
  split; [done|]. unfold mitochondrialChecked, mitochondrialMatch.
  cbn [swapSons mother son1 son2]. split.
  - by rewrite <- !andb_assoc, (andb_comm (negb (falsy (son2 e)))).
  - apply andb_comm.
Qed.

(** X4.  Exchanging son1 with son2 in every record leaves the three counts
    of the mitochondrial report unchanged, and the mismatched records are
    the same records with the exchange applied. *)
Theorem mitochondrial_symmetric_in_sons (entries : list GenotypeEntry) :
  let r := analyzeMitochondrial entries in
  let r' := analyzeMitochondrial (map swapSons entries) in
  MitochondrialResult.matches r' = MitochondrialResult.matches r ∧
  MitochondrialResult.mismatches r' = MitochondrialResult.mismatches r ∧
  MitochondrialResult.total r' = MitochondrialResult.total r ∧
  MitochondrialResult.mismatchedEntries r' =
    map swapSons (MitochondrialResult.mismatchedEntries r).
Proof.
  cbn zeta. rewrite !analyzeMitochondrial_eq. cbn zeta.
  cbn [MitochondrialResult.total MitochondrialResult.matches
       MitochondrialResult.mismatches MitochondrialResult.mismatchedEntries].
  unfold matchCount, mismatchList.
  rewrite !filter_filter_andb, !filter_map_comm.
  rewrite (filter_ext_eq
    (λ x, isMT (swapSons x) &&
          (mitochondrialChecked (swapSons x) && mitochondrialMatch (swapSons x)))
    (λ x, isMT x && (mitochondrialChecked x && mitochondrialMatch x)))
    by (intros x; destruct (mitochondrial_swapSons x) as (-> & -> & ->); done).
  rewrite (filter_ext_eq
    (λ x, isMT (swapSons x) &&
          (mitochondrialChecked (swapSons x) &&
           negb (mitochondrialMatch (swapSons x))))
    (λ x, isMT x && (mitochondrialChecked x && negb (mitochondrialMatch x))))
    by (intros x; destruct (mitochondrial_swapSons x) as (-> & -> & ->); done).
  by rewrite !length_map.
Qed.

(** X5.  The Mendelian and the mitochondrial report of a concatenation are
    the sums of the reports of the two parts: counts add up and the listed
    records are appended. *)
Theorem reports_additive (entries1 entries2 : list GenotypeEntry) :
  let m1 := analyzeMendelianConsistency entries1 in
  let m2 := analyzeMendelianConsistency entries2 in
  let m := analyzeMendelianConsistency (entries1 ++ entries2) in
  let t1 := analyzeMitochondrial entries1 in
  let t2 := analyzeMitochondrial entries2 in
  let t := analyzeMitochondrial (entries1 ++ entries2) in
  (MendelianResult.consistent m =
     MendelianResult.consistent m1 + MendelianResult.consistent m2 ∧
   MendelianResult.inconsistent m =
     MendelianResult.inconsistent m1 + MendelianResult.inconsistent m2 ∧
   MendelianResult.totalSNPs m =
     MendelianResult.totalSNPs m1 + MendelianResult.totalSNPs m2 ∧
   MendelianResult.inconsistentEntries m =
     MendelianResult.inconsistentEntries m1 ++
     MendelianResult.inconsistentEntries m2) ∧
  (MitochondrialResult.matches t =
     MitochondrialResult.matches t1 + MitochondrialResult.matches t2 ∧
   MitochondrialResult.mismatches t =
     MitochondrialResult.mismatches t1 + MitochondrialResult.mismatches t2 ∧
   MitochondrialResult.total t =
     MitochondrialResult.total t1 + MitochondrialResult.total t2 ∧
   MitochondrialResult.mismatchedEntries t =
     MitochondrialResult.mismatchedEntries t1 ++
     MitochondrialResult.mismatchedEntries t2).
Proof.
  cbn zeta. rewrite !analyzeMendelianConsistency_eq, !analyzeMitochondrial_eq.
  cbn zeta.
  cbn [MendelianResult.totalSNPs MendelianResult.consistent
       MendelianResult.inconsistent MendelianResult.inconsistentEntries
       MitochondrialResult.total MitochondrialResult.matches
       MitochondrialResult.mismatches MitochondrialResult.mismatchedEntries].
  unfold consistentCount, inconsistentList, matchCount, mismatchList.
  rewrite !List.filter_app, !length_app.
  repeat split; lia.
Qed.

End MitochondrialAlgebra.

Section SiblingAlgebra.

Lemma Qred_idem (q : Q) : Qred (Qred q) = Qred q.
Proof. apply Qred_complete, Qred_correct. Qed.

Lemma sharedAlleles_checked_bounds (e : GenotypeEntry) :
  siblingChecked e = true → 0 ≤ sharedAlleles (son1 e) (son2 e) ≤ 2.
Proof.
  intros [(a & b & ->)%length_two_split (c & d & ->)%length_two_split]
    %siblingChecked_lengths.
  apply (sharedAlleles_pair a b c d).
Qed.

Lemma sharedTotal_bounds (l : list GenotypeEntry) :
  0 ≤ sharedTotal l ≤ 2 * checkedCount l.
Proof.
  unfold checkedCount. induction l as [|e l IH]; [done|].
  cbn [sharedTotal foldr List.filter]. fold (sharedTotal l).
  destruct (siblingChecked e) eqn:He; [|lia].
  pose proof (sharedAlleles_checked_bounds e He). cbn [length]. lia.
Qed.

Lemma sharedTotal_app (l1 l2 : list GenotypeEntry) :
  sharedTotal (l1 ++ l2) = sharedTotal l1 + sharedTotal l2.
Proof.
  induction l1 as [|e l1 IH]; [done|].
  cbn [app sharedTotal foldr]. fold (sharedTotal (l1 ++ l2)) (sharedTotal l1).
  lia.
Qed.

Lemma sharedTotal_full (l : list GenotypeEntry) :
  sharedTotal l = 2 * checkedCount l ↔
  Forall (λ e, siblingChecked e = true →
               sharedAlleles (son1 e) (son2 e) = 2) l.
Proof.
  induction l as [|e l IH]; [by split; [constructor|]|].
  pose proof (sharedTotal_bounds l) as Hl. unfold checkedCount in *.
  cbn [sharedTotal foldr List.filter]. fold (sharedTotal l).
  rewrite Forall_cons.
  destruct (siblingChecked e) eqn:He.
  - pose proof (sharedAlleles_checked_bounds e He). cbn [length].
    split.
    + intros Hsum. split; [intros _; lia|]. apply IH. lia.
    + intros [H2 Hrest]. apply IH in Hrest. specialize (H2 eq_refl). lia.
  - split.
    + intros Hsum. split; [done|]. apply IH. lia.
    + intros [_ Hrest]. apply IH in Hrest. lia.
Qed.

Lemma sibling_fold_closed (l : list GenotypeEntry) (q0 : Q) (t0 : Z) :
  Qred q0 = q0 →
  fold_left siblingStep l (Number.Num q0, t0) =
  (Number.Num (Qred (q0 + inject_Z (sharedTotal l) / 2)), t0 + checkedCount l).
Proof.
  revert q0 t0. unfold checkedCount.
  induction l as [|e l IH]; intros q0 t0 Hq0.
  - cbn [fold_left sharedTotal foldr List.filter length].
    rewrite Z.add_0_r. f_equal. f_equal. rewrite <- Hq0 at 1.
    apply Qred_complete. change (inject_Z 0) with 0%Q. field.
  - cbn [fold_left sharedTotal foldr List.filter]. fold (sharedTotal l).
    rewrite siblingStep_cases. cbn [fst snd].
    destruct (siblingChecked e).
    + change (Number.ofZ (sharedAlleles (son1 e) (son2 e)))
        with (Number.Num (inject_Z (sharedAlleles (son1 e) (son2 e)))).
      rewrite div_Num_ofZ by done. cbn [Number.add].
      rewrite IH by apply Qred_idem. cbn [length].
      f_equal; [|lia]. f_equal. apply Qred_complete.
      rewrite !Qred_correct, inject_Z_plus.
      change (inject_Z 2) with 2%Q. field.
    + rewrite IH by done. rewrite Z.add_0_l. done.
Qed.

Lemma analyzeSiblingSharing_closed (entries : list GenotypeEntry) :
  let autosomal := List.filter isAutosomal entries in
  analyzeSiblingSharing entries =
  {| SiblingComparison.totalSNPs := checkedCount autosomal;
     SiblingComparison.matches :=
       Number.Num (Qred (0 + inject_Z (sharedTotal autosomal) / 2));
     SiblingComparison.matchPercentage :=
       if checkedCount autosomal >? 0
       then Number.mul
              (Number.div
                 (Number.Num (Qred (0 + inject_Z (sharedTotal autosomal) / 2)))
                 (Number.ofZ (checkedCount autosomal)))
              (Number.ofZ 100)
       else Number.ofZ 0 |}.
Proof.
  cbn zeta. rewrite analyzeSiblingSharing_eq. cbn zeta.
  change (Number.ofZ 0, 0) with (Number.Num 0, 0).
  rewrite sibling_fold_closed by done. cbn [fst snd].
  by rewrite Z.add_0_l.
Qed.

Lemma sibling_percentage_value (entries : list GenotypeEntry) :
  let autosomal := List.filter isAutosomal entries in
  0 < checkedCount autosomal →
  ∃ p : Q,
    SiblingComparison.matchPercentage (analyzeSiblingSharing entries) =
      Number.Num p ∧
    Qred p = p ∧
    (p == 50 * inject_Z (sharedTotal autosomal) /
          inject_Z (checkedCount autosomal))%Q.
Proof.
  cbn zeta. intros Ht. rewrite analyzeSiblingSharing_closed. cbn zeta.
  cbn [SiblingComparison.matchPercentage].
  rewrite (proj2 (Z.gtb_lt _ _) Ht), div_Num_ofZ by lia.
  rewrite mul_Num_ofZ. eexists. split; [reflexivity|].
  split; [apply Qred_idem|].
  rewrite !Qred_correct. change (inject_Z 100) with 100%Q.
  rewrite Zlt_Qlt in Ht. change (inject_Z 0) with 0%Q in Ht.
  field. intros H0. rewrite H0 in Ht. by apply Qlt_irrefl in Ht.
Qed.

(** X6.  The sibling report in closed form.  [totalSNPs] is the number of
    autosomal records whose sons are both two characters, [matches] is half
    the number of alleles shared over those records, and that number lies
    between 0 and twice [totalSNPs].  [matchPercentage] is the code's
    [(matches / totalSNPs) * 100] when at least one record is counted and 0
    otherwise, a number between 0 and 100 in both cases. *)
Theorem sibling_report_closed_form (entries : list GenotypeEntry) :
  let r := analyzeSiblingSharing entries in
  let autosomal := List.filter isAutosomal entries in
  SiblingComparison.totalSNPs r = checkedCount autosomal ∧
  0 ≤ sharedTotal autosomal ≤ 2 * SiblingComparison.totalSNPs r ∧
  SiblingComparison.matchPercentage r =
    (if SiblingComparison.totalSNPs r >? 0
     then Number.mul
            (Number.div (SiblingComparison.matches r)
                        (Number.ofZ (SiblingComparison.totalSNPs r)))
            (Number.ofZ 100)
     else Number.ofZ 0) ∧
  ∃ q p : Q,
    SiblingComparison.matches r = Number.Num q ∧
    (q == inject_Z (sharedTotal autosomal) / 2)%Q ∧
    SiblingComparison.matchPercentage r = Number.Num p ∧
    (0 <= p)%Q ∧ (p <= 100)%Q.
Proof.
  cbn zeta.
  pose proof (sharedTotal_bounds (List.filter isAutosomal entries)) as Hb.
  destruct (Z.ltb_spec 0 (checkedCount (List.filter isAutosomal entries)))
    as [Ht|Ht].
  - destruct (sibling_percentage_value entries Ht) as (p & Hp & _ & Hpv).
    assert (SiblingComparison.matchPercentage (analyzeSiblingSharing entries) =
            (if SiblingComparison.totalSNPs (analyzeSiblingSharing entries) >? 0
             then Number.mul
                    (Number.div
                       (SiblingComparison.matches (analyzeSiblingSharing entries))
                       (Number.ofZ (SiblingComparison.totalSNPs
                                      (analyzeSiblingSharing entries))))
                    (Number.ofZ 100)
             else Number.ofZ 0)) as Hexpr
      by (by rewrite analyzeSiblingSharing_closed).
    rewrite Hexpr at 1. rewrite Hp. rewrite analyzeSiblingSharing_closed. cbn zeta.
    cbn [SiblingComparison.totalSNPs SiblingComparison.matches].
    split; [done|]. split; [done|]. split; [done|].
    eexists _, p. split; [reflexivity|].
    split; [rewrite Qred_correct; field|]. split; [done|].
    rewrite !Zle_Qle in Hb. rewrite Zlt_Qlt in Ht.
    rewrite inject_Z_mult in Hb.
    change (inject_Z 0) with 0%Q in *. change (inject_Z 2) with 2%Q in *.
    set (X := inject_Z (sharedTotal (List.filter isAutosomal entries))) in *.
    set (T := inject_Z (checkedCount (List.filter isAutosomal entries))) in *.
    assert (0 <= 50 * X / T)%Q.
    { apply Qle_shift_div_l; [done|]. lra. }
    assert (50 * X / T <= 100)%Q.
    { apply Qle_shift_div_r; [done|]. lra. }
    split; lra.
  - rewrite analyzeSiblingSharing_closed. cbn zeta.
    cbn [SiblingComparison.totalSNPs SiblingComparison.matches
         SiblingComparison.matchPercentage].
    split; [done|]. split; [done|]. split; [done|].
    destruct (Z.gtb_spec (checkedCount (List.filter isAutosomal entries)) 0);
      [lia|].
    eexists _, _. split; [reflexivity|].
    split; [rewrite Qred_correct; field|]. split; [reflexivity|].
    split; done.
Qed.

Lemma sibling_report_closed_form_witness :
  ∃ q p : Q,
    SiblingComparison.matches
      (analyzeSiblingSharing [mkEntry "rs1" "4" 10 "" "AG" "AA" "";
                              mkEntry "rs2" "4" 20 "" "CT" "TC" ""]) =
      Number.Num q ∧
    SiblingComparison.matchPercentage
      (analyzeSiblingSharing [mkEntry "rs1" "4" 10 "" "AG" "AA" "";
                              mkEntry "rs2" "4" 20 "" "CT" "TC" ""]) =
      Number.Num p ∧
    (q == 3 / 2)%Q ∧ (0 <= p)%Q ∧ (p <= 100)%Q.
Proof.
  destruct (sibling_report_closed_form
              [mkEntry "rs1" "4" 10 "" "AG" "AA" "";
               mkEntry "rs2" "4" 20 "" "CT" "TC" ""])
    as (_ & _ & _ & q & p & Hq & Hv & Hp & Hlo & Hhi).
  exists q, p. split; [exact Hq|]. split; [exact Hp|].
  split; [exact Hv|]. split; [exact Hlo | exact Hhi].
Defined.

(** X7.  The sibling report of a concatenation: [totalSNPs] is the sum of
    the two totals and [matches] the sum of the two [matches]. *)
Theorem sibling_report_additive (entries1 entries2 : list GenotypeEntry) :
  let r1 := analyzeSiblingSharing entries1 in
  let r2 := analyzeSiblingSharing entries2 in
  let r := analyzeSiblingSharing (entries1 ++ entries2) in
  SiblingComparison.totalSNPs r =
    SiblingComparison.totalSNPs r1 + SiblingComparison.totalSNPs r2 ∧
  SiblingComparison.matches r =
    Number.add (SiblingComparison.matches r1) (SiblingComparison.matches r2).
Proof.
  cbn zeta. rewrite !analyzeSiblingSharing_closed. cbn zeta.
  cbn [SiblingComparison.totalSNPs SiblingComparison.matches Number.add].
  rewrite List.filter_app, sharedTotal_app. unfold checkedCount.
  rewrite List.filter_app, length_app. split; [lia|].
  f_equal. apply Qred_complete. rewrite !Qred_correct, inject_Z_plus. field.
Qed.

(** X8.  When at least one record is counted, the sibling percentage is
    exactly 100 if and only if every counted record shares both alleles,
    that is, the two sons carry the same pair of alleles up to order. *)
Theorem sibling_full_sharing (entries : list GenotypeEntry) :
  0 < SiblingComparison.totalSNPs (analyzeSiblingSharing entries) →
  SiblingComparison.matchPercentage (analyzeSiblingSharing entries) =
    Number.Num 100 ↔
  Forall (λ e, isAutosomal e = true → siblingChecked e = true →
               sharedAlleles (son1 e) (son2 e) = 2) entries.
Proof.
  intros Ht.
  assert (SiblingComparison.totalSNPs (analyzeSiblingSharing entries) =
          checkedCount (List.filter isAutosomal entries)) as Htot
    by (by rewrite analyzeSiblingSharing_closed).
  rewrite Htot in Ht.
  destruct (sibling_percentage_value entries Ht) as (p & -> & Hcanon & Hpv).
  assert (Forall (λ e, isAutosomal e = true → siblingChecked e = true →
                       sharedAlleles (son1 e) (son2 e) = 2) entries ↔
          Forall (λ e, siblingChecked e = true →
                       sharedAlleles (son1 e) (son2 e) = 2)
                 (List.filter isAutosomal entries)) as ->.
  { clear. induction entries as [|e l IH]; [by split; constructor|].
    cbn [List.filter]. rewrite Forall_cons, IH.
    destruct (isAutosomal e); [rewrite Forall_cons|]; intuition congruence. }
  rewrite <- sharedTotal_full.
  set (S := sharedTotal (List.filter isAutosomal entries)) in *.
  set (T := checkedCount (List.filter isAutosomal entries)) in *.
  assert (0 < inject_Z T)%Q as HT by (by rewrite <- (Zlt_Qlt 0)).
  split.
  - intros [= Hp]. rewrite Hp in Hpv.
    assert (inject_Z S == 2 * inject_Z T)%Q as HST.
    { assert (100 * inject_Z T == 50 * inject_Z S)%Q as H100; [|lra].
      rewrite Hpv. field. intros H0. rewrite H0 in HT.
      by apply Qlt_irrefl in HT. }
    change 2%Q with (inject_Z 2) in HST. rewrite <- inject_Z_mult in HST.
    exact (proj1 (inject_Z_injective _ _) HST).
  - intros HST. f_equal. rewrite <- Hcanon.
    change 100%Q with (Qred 100). apply Qred_complete.
    rewrite Hpv, HST, inject_Z_mult. change (inject_Z 2) with 2%Q.
    field. intros H0. rewrite H0 in HT. by apply Qlt_irrefl in HT.
Qed.

Lemma sibling_full_sharing_witness :
  SiblingComparison.matchPercentage
    (analyzeSiblingSharing [mkEntry "rs1" "4" 10 "" "AG" "GA" "";
                            mkEntry "rs2" "9" 20 "" "CC" "CC" ""]) =
  Number.Num 100.
Proof.
  apply (sibling_full_sharing [mkEntry "rs1" "4" 10 "" "AG" "GA" "";
                               mkEntry "rs2" "9" 20 "" "CC" "CC" ""]).
  - reflexivity.
  - repeat constructor.
Defined.

End SiblingAlgebra.

(** ** The autosomal filter and malformed labels *)

Section AutosomalRetention.

Lemma mendelian_total_retained (entries : list GenotypeEntry) :
  MendelianResult.totalSNPs (analyzeMendelianConsistency entries) =
  Z.of_nat (length (List.filter
    (λ e, hasNumericPrefix (chromosome e) && mendelianChecked e) entries)).
Proof.
  rewrite analyzeMendelianConsistency_eq. cbn zeta.
  cbn [MendelianResult.totalSNPs]. unfold consistentCount, inconsistentList.
  rewrite <- Nat2Z.inj_add, filter_split_length, filter_filter_andb.
  do 2 f_equal. apply filter_ext_eq. intros e.
  by rewrite isAutosomal_numeric_prefix.
Qed.

Lemma sibling_total_retained (entries : list GenotypeEntry) :
  SiblingComparison.totalSNPs (analyzeSiblingSharing entries) =
  Z.of_nat (length (List.filter
    (λ e, hasNumericPrefix (chromosome e) && siblingChecked e) entries)).
Proof.
  rewrite analyzeSiblingSharing_closed. cbn zeta.
  cbn [SiblingComparison.totalSNPs]. unfold checkedCount.
  rewrite filter_filter_andb. do 2 f_equal. apply filter_ext_eq. intros e.
  by rewrite isAutosomal_numeric_prefix.
Qed.

(** C2.  The two reports do not keep exactly the records with an unsigned
    decimal label.  [totalSNPs] of the Mendelian report counts every record
    that passes the length guards and whose label [parseInt] reads as a
    number, and [totalSNPs] of the sibling report likewise: a label is read
    as a number as soon as, after leading white space and one optional
    sign, it begins with a digit, whatever follows.  Every unsigned decimal
    label is read as a number, but so are the labels [-1], [+3], [1q] and
    [0x1F], none of them an unsigned decimal integer: they are kept, while
    X, Y, MT, the empty label and [0xg] are dropped.  The file
    line [rs1 -1 100 AA AA AA AA] parses to a record with the label [-1],
    and that record is counted by both reports exactly as the same record
    with the label [1] is. *)
Theorem autosomal_filter_keeps_malformed_labels :
  (∀ entries : list GenotypeEntry,
     MendelianResult.totalSNPs (analyzeMendelianConsistency entries) =
       Z.of_nat (length (List.filter
         (λ e, hasNumericPrefix (chromosome e) && mendelianChecked e) entries)) ∧
     SiblingComparison.totalSNPs (analyzeSiblingSharing entries) =
       Z.of_nat (length (List.filter
         (λ e, hasNumericPrefix (chromosome e) && siblingChecked e) entries))) ∧
  (∀ s : string, implb (isUnsignedDecimal s) (hasNumericPrefix s) = true) ∧
  map hasNumericPrefix ["-1"; "+3"; "1q"; " 7"; "0x1F"; "1"; "22"]%string =
    [true; true; true; true; true; true; true] ∧
  map isUnsignedDecimal ["-1"; "+3"; "1q"; " 7"; "0x1F"; "1"; "22"]%string =
    [false; false; false; false; false; true; true] ∧
  map hasNumericPrefix ["X"; "Y"; "MT"; ""; "chr1"; "0xg"; "-"]%string =
    [false; false; false; false; false; false; false] ∧
  map toGenotypeEntry
      (ParsedData.entries (parseGenomeData "rs1 -1 100 AA AA AA AA")) =
    [Some (mkEntry "rs1" "-1" 100 "AA" "AA" "AA" "AA")] ∧
  analyzeMendelianConsistency [mkEntry "rs1" "-1" 100 "AA" "AA" "AA" "AA"] =
    analyzeMendelianConsistency [mkEntry "rs1" "1" 100 "AA" "AA" "AA" "AA"] ∧
  MendelianResult.totalSNPs
    (analyzeMendelianConsistency [mkEntry "rs1" "-1" 100 "AA" "AA" "AA" "AA"]) = 1 ∧
  analyzeSiblingSharing [mkEntry "rs1" "-1" 100 "AA" "AA" "AA" "AA"] =
    analyzeSiblingSharing [mkEntry "rs1" "1" 100 "AA" "AA" "AA" "AA"] ∧
  SiblingComparison.totalSNPs
    (analyzeSiblingSharing [mkEntry "rs1" "-1" 100 "AA" "AA" "AA" "AA"]) = 1 ∧
  MendelianResult.totalSNPs
    (analyzeMendelianConsistency [mkEntry "rs2" "1q" 100 "AA" "AA" "AA" "AA"]) = 1 ∧
  SiblingComparison.totalSNPs
    (analyzeSiblingSharing [mkEntry "rs2" "1q" 100 "AA" "AA" "AA" "AA"]) = 1.
Proof.
  split.
  { intros entries.
    split; [apply mendelian_total_retained | apply sibling_total_retained]. }
  split.
  { intros s. destruct (isUnsignedDecimal s) eqn:Hs; [|done].
    cbn [implb]. by apply unsigned_decimal_numeric_prefix. }
  repeat split; by vm_compute.
Qed.

End AutosomalRetention.

Section ClassifierInputs.

Lemma gatherStep_not_MT (mtEntries : gmap Z string) (e : GenotypeEntry) :
  isMT e = false → gatherStep mtEntries e = mtEntries.
Proof. unfold gatherStep, isMT. by intros ->. Qed.

Lemma gatherStep_same (mtEntries : gmap Z string) (e e' : GenotypeEntry) :
  sameForClassifier e e' → gatherStep mtEntries e = gatherStep mtEntries e'.
Proof.
  intros (Hc & Hp & Hm & H1). unfold gatherStep, preferredAllele.
  by rewrite Hc, Hp, Hm, H1.
Qed.

Lemma gather_fold_filter (entries : list GenotypeEntry) (mtEntries : gmap Z string) :
  fold_left gatherStep (List.filter isMT entries) mtEntries =
  fold_left gatherStep entries mtEntries.
Proof.
  revert mtEntries. induction entries as [|e l IH]; intros mtEntries; [done|].
  cbn [List.filter fold_left]. destruct (isMT e) eqn:He.
  - cbn [fold_left]. apply IH.
  - rewrite (gatherStep_not_MT _ _ He). apply IH.
Qed.

Lemma gather_fold_same (entries entries' : list GenotypeEntry)
    (mtEntries : gmap Z string) :
  Forall2 sameForClassifier entries entries' →
  fold_left gatherStep entries mtEntries = fold_left gatherStep entries' mtEntries.
Proof.
  intros Hl. revert mtEntries.
  induction Hl as [|e e' l l' He Hl IH]; intros mtEntries; [done|].
  cbn [fold_left]. rewrite (gatherStep_same _ _ _ He). apply IH.
Qed.

(** X9.  The haplogroup estimate reads nothing but the chromosome, the
    position, the mother and son1 of the MT records: dropping every other
    record does not change it, and two inputs that agree record by record
    on these four fields, whatever their rsid, father and son2, give the
    same result. *)
Theorem classifier_reads_only_mt_mother_son1 (rules : list HaplogroupRule.t) :
  (∀ entries : list GenotypeEntry,
     estimateHaplogroupsWith rules (List.filter isMT entries) =
     estimateHaplogroupsWith rules entries) ∧
  (∀ entries entries' : list GenotypeEntry,
     Forall2 sameForClassifier entries entries' →
     estimateHaplogroupsWith rules entries =
     estimateHaplogroupsWith rules entries').
Proof.
  split.
  - intros entries. unfold estimateHaplogroupsWith, gatherMtEntries.
    by rewrite gather_fold_filter.
  - intros entries entries' Hl. unfold estimateHaplogroupsWith, gatherMtEntries.
    by rewrite (gather_fold_same _ _ _ Hl).
Qed.

Lemma classifier_reads_only_mt_mother_son1_witness :
  estimateHaplogroupsWith mtRules
    [mkEntry "i1" "MT" 7028 "T" "C" "C" "C"; mkEntry "rs1" "1" 50 "AA" "AG" "GG" "AG"] =
  estimateHaplogroupsWith mtRules
    [mkEntry "i9" "MT" 7028 "" "C" "T" "C"; mkEntry "rs7" "1" 50 "" "AG" "" "AG"].
Proof.
  apply (proj2 (classifier_reads_only_mt_mother_son1 mtRules)).
  repeat constructor.
Defined.

Lemma markers_fold_total (mtEntries : gmap Z string) (ms : list Marker.t)
    (matches total : Z) :
  (fold_left (markerStep mtEntries) ms (matches, total)).2 ≤
  total + Z.of_nat (length ms).
Proof.
  revert matches total. induction ms as [|mk ms IH]; intros matches total.
  - cbn [fold_left snd length]. lia.
  - cbn [fold_left length].
    assert ((markerStep mtEntries (matches, total) mk).2 ≤ total + 1) as Hstep.
    { unfold markerStep.
      destruct (mtEntries !! Marker.position mk) as [val|]; cbn [snd]; [|lia].
      destruct (negb (falsy val)); cbn [snd]; [|lia].
      destruct (includes val (Marker.allele mk)); cbn [snd]; lia. }
    destruct (markerStep mtEntries (matches, total) mk) as [matches' total'].
    cbn [snd] in Hstep. specialize (IH matches' total'). lia.
Qed.

Lemma candidate_counts (mtEntries : gmap Z string) (rule : HaplogroupRule.t) :
  isCandidate mtEntries rule = true →
  1 ≤ ruleMatches mtEntries rule ≤ ruleTotal mtEntries rule ∧
  ruleTotal mtEntries rule ≤ 2 * ruleMatches mtEntries rule ∧
  ruleTotal mtEntries rule ≤ Z.of_nat (length (HaplogroupRule.markers rule)).
Proof.
  intros Hc.
  destruct (candidate_score mtEntries rule Hc)
    as (p & s & _ & _ & Hp & _ & H50 & _ & _).
  pose proof (rule_counts_bounds mtEntries rule) as [Hm0 Hmt].
  pose proof (markers_fold_total mtEntries (HaplogroupRule.markers rule) 0 0)
    as Hlen.
  fold (countMarkers mtEntries rule) in Hlen. fold (ruleTotal mtEntries rule) in Hlen.
  unfold isCandidate in Hc. apply andb_true_iff in Hc as [Ht%Z.gtb_lt _].
  assert (ruleTotal mtEntries rule ≤ 2 * ruleMatches mtEntries rule) as H2.
  { rewrite Zle_Qle, inject_Z_mult. rewrite Zlt_Qlt in Ht.
    change (inject_Z 0) with 0%Q in Ht. change (inject_Z 2) with 2%Q.
    set (M := inject_Z (ruleMatches mtEntries rule)) in *.
    set (T := inject_Z (ruleTotal mtEntries rule)) in *.
    assert (M / T * T == M)%Q as Hdiv.
    { field. intros H0. rewrite H0 in Ht. by apply Qlt_irrefl in Ht. }
    assert (50 * T <= (M / T * 100) * T)%Q as Hmul.
    { apply Qmult_le_compat_r; [by rewrite <- Hp | by apply Qlt_le_weak]. }
    assert ((M / T * 100) * T == 100 * M)%Q as Hre.
    { rewrite <- Hdiv at 2. ring. }
    rewrite Hre in Hmul. lra. }
  lia.
Qed.

(** X10.  What the estimate can return.  Either the best match is the
    initial one, with the label "Undetermined (Try external tool)" and zero
    counts, or it comes from a rule of the table: then the label is that
    rule's (rewritten only if the rule is itself called Undetermined), at
    least one marker matched, at least half of the tested markers matched,
    the tested markers are no more than the rule lists, and the percentage
    is a number between 50 and 100. *)
Theorem estimate_result_shape (rules : list HaplogroupRule.t)
    (entries : list GenotypeEntry) :
  let r := estimateHaplogroupsWith rules entries in
  ∃ d : Details.t,
    HaplogroupResult.details r = Some d ∧
    ((HaplogroupResult.maternal r = "Undetermined (Try external tool)"%string ∧
      d = Details.mk 0 0 (Number.Num 0) (Some ""%string)) ∨
     (∃ rule : HaplogroupRule.t,
        rule ∈ rules ∧
        HaplogroupResult.maternal r =
          maternalLabel (HaplogroupRule.haplogroup rule) ∧
        Details.description d =
          Some (default ""%string (HaplogroupRule.description rule)) ∧
        1 ≤ Details.matchCount d ≤ Details.totalmarkers d ∧
        Details.totalmarkers d ≤ 2 * Details.matchCount d ∧
        Details.totalmarkers d ≤
          Z.of_nat (length (HaplogroupRule.markers rule)) ∧
        ∃ p : Q, Details.percentage d = Number.Num p ∧
                 (50 <= p)%Q ∧ (p <= 100)%Q)).
Proof.
  cbn zeta. rewrite estimateHaplogroupsWith_eq. cbn zeta.
  eexists. split; [reflexivity|].
  destruct (findBestMatch_selected (gatherMtEntries entries) rules)
    as [[-> _]|(j & best & (Hj & Hc & _) & ->)]; [by left|].
  right. exists best.
  destruct (candidate_score _ best Hc) as (p & s & Hp & _ & _ & _ & H50 & H100 & _).
  destruct (candidate_counts _ best Hc) as (Hm & H2 & Hlen).
  cbn [bestMatchOf BestMatch.haplogroup BestMatch.matches BestMatch.total
       BestMatch.percentage BestMatch.description HaplogroupResult.maternal
       Details.description Details.matchCount Details.totalmarkers
       Details.percentage].
  split; [by eapply list_elem_of_lookup_2|].
  split; [done|]. split; [done|]. split; [done|]. split; [done|].
  split; [done|]. by exists p.
Qed.

End ClassifierInputs.

Section DashboardErrorRate.

(** X11.  The error rate that the dashboard derives from the Mendelian
    report.  When no record was checked it is NaN, 0 divided by 0, and the
    high-error flag is off.  Otherwise it is a number between 0 and 100,
    and the flag is on exactly when more than one checked record in a
    hundred is inconsistent. *)
Theorem dashboard_error_rate (entries : list GenotypeEntry) :
  let mendelian := analyzeMendelianConsistency entries in
  (MendelianResult.totalSNPs mendelian = 0 →
   errorRate mendelian = Number.NaN ∧ isHighError mendelian = false) ∧
  (0 < MendelianResult.totalSNPs mendelian →
   ∃ p : Q,
     errorRate mendelian = Number.Num p ∧
     (0 <= p)%Q ∧ (p <= 100)%Q ∧
     (isHighError mendelian = true ↔
      MendelianResult.totalSNPs mendelian <
        100 * MendelianResult.inconsistent mendelian)).
Proof.
  cbn zeta. rewrite analyzeMendelianConsistency_eq. cbn zeta.
  unfold isHighError, errorRate.
  cbn [MendelianResult.totalSNPs MendelianResult.inconsistent].
  set (c := consistentCount (List.filter isAutosomal entries)).
  set (i := Z.of_nat (length (inconsistentList (List.filter isAutosomal entries)))).
  assert (0 ≤ c) as Hc by (unfold c, consistentCount; lia).
  assert (0 ≤ i) as Hi by (unfold i; lia).
  clearbody c i. split.
  - intros Ht. assert (i = 0) as -> by lia. assert (c = 0) as -> by lia.
    done.
  - intros Ht.
    change (Number.ofZ i) with (Number.Num (inject_Z i)).
    rewrite div_Num_ofZ, mul_Num_ofZ by lia.
    eexists. split; [reflexivity|].
    assert (i ≤ c + i) as Hit by lia.
    rewrite Zle_Qle in Hi, Hit. rewrite Zlt_Qlt in Ht.
    change (inject_Z 0) with 0%Q in *. change (inject_Z 100) with 100%Q.
    set (I := inject_Z i) in *. set (T := inject_Z (c + i)) in *.
    assert (¬ T == 0)%Q as HT0.
    { intros H0. rewrite H0 in Ht. by apply Qlt_irrefl in Ht. }
    set (P := Qred (Qred (I / T) * 100)).
    assert (P == 100 * I / T)%Q as Hp.
    { unfold P. rewrite !Qred_correct. by field. }
    assert (0 <= 100 * I / T)%Q as Hlo by (apply Qle_shift_div_l; [done|lra]).
    assert (100 * I / T <= 100)%Q as Hhi by (apply Qle_shift_div_r; [done|lra]).
    split; [by rewrite Hp|]. split; [by rewrite Hp|].
    unfold Number.gt. rewrite lt_Num.
    assert (c + i < 100 * i ↔ (T < 100 * I)%Q) as ->.
    { unfold T, I. rewrite Zlt_Qlt, inject_Z_mult. done. }
    split.
    + intros Hlt. rewrite Hp in Hlt. apply Qnot_le_lt. intros Hle.
      assert (100 * I / T <= 1)%Q by (apply Qle_shift_div_r; [done|lra]).
      lra.
    + intros Hlt. rewrite Hp. apply Qlt_shift_div_l; [done|lra].
Qed.

Lemma dashboard_error_rate_witness :
  (errorRate (analyzeMendelianConsistency
                [mkEntry "rs1" "X" 5 "AA" "AA" "AA" "AA"]) = Number.NaN ∧
   isHighError (analyzeMendelianConsistency
                  [mkEntry "rs1" "X" 5 "AA" "AA" "AA" "AA"]) = false) ∧
  ∃ p : Q,
    errorRate (analyzeMendelianConsistency
                 [mkEntry "rs1" "2" 5 "AA" "AA" "GG" "AA";
                  mkEntry "rs2" "2" 9 "AG" "AG" "AG" "GG"]) = Number.Num p.
Proof.
  split.
  - apply (proj1 (dashboard_error_rate [mkEntry "rs1" "X" 5 "AA" "AA" "AA" "AA"])).
    reflexivity.
  - destruct (proj2 (dashboard_error_rate
                       [mkEntry "rs1" "2" 5 "AA" "AA" "GG" "AA";
                        mkEntry "rs2" "2" 9 "AG" "AG" "AG" "GG"]) eq_refl)
      as (p & Hp & _).
    by exists p.
Defined.

End DashboardErrorRate.

(** ** The trait tables *)

Section Traits.

Lemma traitStep_acc (entries : list GenotypeEntry) (acc : list TraitResult.t)
    (trait : TraitDefinition.t) :
  traitStep entries acc trait = acc ++ traitStep entries [] trait.
Proof. unfold traitStep. destruct (List.find _ _); [done | by rewrite app_nil_r]. Qed.

Lemma trait_fold (entries : list GenotypeEntry) (table : list TraitDefinition.t)
    (acc : list TraitResult.t) :
  fold_left (traitStep entries) table acc =
  acc ++ flat_map (traitStep entries []) table.
Proof.
  revert acc. induction table as [|t table IH]; intros acc.
  - by rewrite app_nil_r.
  - cbn [fold_left flat_map]. rewrite IH, traitStep_acc. by rewrite app_assoc.
Qed.

Lemma find_existsb {A : Type} (f : A → bool) (l : list A) :
  existsb f l = match List.find f l with Some _ => true | None => false end.
Proof.
  induction l as [|x l IH]; [done|]. cbn [existsb List.find].
  by destruct (f x).
Qed.

Lemma find_first {A : Type} (f : A → bool) (l : list A) (x : A) :
  List.find f l = Some x →
  ∃ before after : list A,
    l = before ++ x :: after ∧ f x = true ∧ Forall (λ y, f y = false) before.
Proof.
  induction l as [|y l IH]; [done|]. cbn [List.find].
  destruct (f y) eqn:Hy.
  - intros [= ->]. by exists [], l.
  - intros (before & after & -> & Hx & Hb)%IH.
    exists (y :: before), after. by repeat split; [|constructor].
Qed.

Lemma trait_table_rsids (entries : list GenotypeEntry)
    (table : list TraitDefinition.t) :
  map TraitResult.rsid (fold_left (traitStep entries) table []) =
  List.filter (λ id, existsb (λ e, String.eqb (rsid e) id) entries)
              (map TraitDefinition.rsid table).
Proof.
  rewrite trait_fold. cbn [app].
  induction table as [|t table IH]; [done|].
  cbn [flat_map map List.filter]. rewrite map_app, IH, find_existsb.
  unfold traitStep. by destruct (List.find _ entries).
Qed.

Lemma filter_length_le {A : Type} (f : A → bool) (l : list A) :
  (length (List.filter f l) ≤ length l)%nat.
Proof.
  induction l as [|x l IH]; [done|]. cbn [List.filter].
  destruct (f x); cbn [length]; lia.
Qed.

Lemma NoDup_List_filter {A : Type} (f : A → bool) (l : list A) :
  NoDup l → NoDup (List.filter f l).
Proof.
  induction 1 as [|x l Hx Hl IH]; [constructor|]. cbn [List.filter].
  destruct (f x); [|done]. constructor; [|done].
  rewrite list_elem_of_In, filter_In, <- list_elem_of_In. tauto.
Qed.

(** X12.  [analyzeTraits] and [analyzeWellness] report exactly the traits
    of their table whose rsid occurs in the input, once each and in table
    order: at most twelve results each, with pairwise distinct rsids, and
    none on the empty input. *)
Theorem trait_results_follow_table (entries : list GenotypeEntry) :
  let found := λ id, existsb (λ e, String.eqb (rsid e) id) entries in
  map TraitResult.rsid (analyzeTraits entries) =
    List.filter found (map TraitDefinition.rsid knownTraits) ∧
  map TraitResult.rsid (analyzeWellness entries) =
    List.filter found (map TraitDefinition.rsid wellnessTraits) ∧
  (length (analyzeTraits entries) ≤ 12)%nat ∧
  (length (analyzeWellness entries) ≤ 12)%nat ∧
  NoDup (map TraitResult.rsid (analyzeTraits entries)) ∧
  NoDup (map TraitResult.rsid (analyzeWellness entries)) ∧
  analyzeTraits [] = [] ∧ analyzeWellness [] = [].
Proof.
  cbn zeta. unfold analyzeTraits, analyzeWellness.
  pose proof (trait_table_rsids entries knownTraits) as Hk.
  pose proof (trait_table_rsids entries wellnessTraits) as Hw.
  split; [done|]. split; [done|].
  split.
  { rewrite <- (length_map TraitResult.rsid), Hk.
    etrans; [apply filter_length_le|]. by vm_compute. }
  split.
  { rewrite <- (length_map TraitResult.rsid), Hw.
    etrans; [apply filter_length_le|]. by vm_compute. }
  split.
  { rewrite Hk. apply NoDup_List_filter.
    apply (bool_decide_unpack _). by vm_compute. }
  split.
  { rewrite Hw. apply NoDup_List_filter.
    apply (bool_decide_unpack _). by vm_compute. }
  split; reflexivity.
Qed.

Lemma trait_table_first_record (entries : list GenotypeEntry)
    (table : list TraitDefinition.t) (r : TraitResult.t) :
  r ∈ fold_left (traitStep entries) table [] →
  ∃ (trait : TraitDefinition.t) (before : list GenotypeEntry)
    (entry : GenotypeEntry) (after : list GenotypeEntry),
    trait ∈ table ∧
    entries = before ++ entry :: after ∧
    rsid entry = TraitDefinition.rsid trait ∧
    Forall (λ e, rsid e ≠ TraitDefinition.rsid trait) before ∧
    r = {| TraitResult.trait := TraitDefinition.trait trait;
           TraitResult.rsid := TraitDefinition.rsid trait;
           TraitResult.description := TraitDefinition.description trait;
           TraitResult.genotypes :=
             {| Genotypes.father := personResult trait (father entry);
                Genotypes.mother := personResult trait (mother entry);
                Genotypes.son1 := personResult trait (son1 entry);
                Genotypes.son2 := personResult trait (son2 entry) |} |}.
Proof.
  rewrite trait_fold. cbn [app].
  rewrite list_elem_of_In, in_flat_map.
  intros (trait & Htrait & Hr). exists trait.
  unfold traitStep in Hr.
  destruct (List.find _ entries) as [entry|] eqn:Hfind; [|done].
  destruct (find_first _ _ _ Hfind) as (before & after & -> & Heq & Hbefore).
  exists before, entry, after.
  split; [by apply list_elem_of_In|]. split; [done|].
  split; [by apply String.eqb_eq|].
  split.
  { eapply Forall_impl; [exact Hbefore|]. intros e He.
    by apply String.eqb_neq. }
  cbn [app In] in Hr. by destruct Hr as [<-|[]].
Qed.

(** X13.  Every result of [analyzeTraits] or [analyzeWellness] is built
    from a trait of the table and the first record of the input with that
    trait's rsid: it carries the four genotypes of that record, each with
    the trait's interpretation of it, whether the genotype is a call or
    empty. *)
Theorem trait_result_from_first_record (entries : list GenotypeEntry)
    (r : TraitResult.t) :
  r ∈ analyzeTraits entries ++ analyzeWellness entries →
  ∃ (trait : TraitDefinition.t) (before : list GenotypeEntry)
    (entry : GenotypeEntry) (after : list GenotypeEntry),
    trait ∈ knownTraits ++ wellnessTraits ∧
    entries = before ++ entry :: after ∧
    rsid entry = TraitDefinition.rsid trait ∧
    Forall (λ e, rsid e ≠ TraitDefinition.rsid trait) before ∧
    r = {| TraitResult.trait := TraitDefinition.trait trait;
           TraitResult.rsid := TraitDefinition.rsid trait;
           TraitResult.description := TraitDefinition.description trait;
           TraitResult.genotypes :=
             {| Genotypes.father := personResult trait (father entry);
                Genotypes.mother := personResult trait (mother entry);
                Genotypes.son1 := personResult trait (son1 entry);
                Genotypes.son2 := personResult trait (son2 entry) |} |}.
Proof.
  intros [Hr|Hr]%elem_of_app;
    apply trait_table_first_record in Hr
      as (trait & before & entry & after & Ht & Hrest);
    exists trait, before, entry, after; (split; [|exact Hrest]);
    apply elem_of_app; [by left | by right].
Qed.

Lemma trait_result_from_first_record_witness :
  ∃ (trait : TraitDefinition.t) (before : list GenotypeEntry)
    (entry : GenotypeEntry) (after : list GenotypeEntry),
    [mkEntry "rs1" "1" 5 "AA" "AA" "AA" "AA";
     mkEntry "rs671" "12" 7 "AG" "GG" "" "GG";
     mkEntry "rs671" "12" 7 "AA" "AA" "AA" "AA"] = before ++ entry :: after ∧
    rsid entry = TraitDefinition.rsid trait.
Proof.
  destruct (trait_result_from_first_record
    [mkEntry "rs1" "1" 5 "AA" "AA" "AA" "AA";
     mkEntry "rs671" "12" 7 "AG" "GG" "" "GG";
     mkEntry "rs671" "12" 7 "AA" "AA" "AA" "AA"]
    {| TraitResult.trait := "Alcohol Flush Reaction (ALDH2)";
       TraitResult.rsid := "rs671";
       TraitResult.description := "Asian flush reaction to alcohol.";
       TraitResult.genotypes :=
         {| Genotypes.father :=
              PersonResult.mk "AG" "Likely has Alcohol Flush Reaction";
            Genotypes.mother := PersonResult.mk "GG" "Tolerant to Alcohol";
            Genotypes.son1 := PersonResult.mk "GG" "Tolerant to Alcohol";
            Genotypes.son2 := PersonResult.mk "" "Tolerant to Alcohol" |} |})
    as (trait & before & entry & after & _ & Hsplit & Hrsid & _).
  - vm_compute. apply list_elem_of_here.
  - by exists trait, before, entry, after.
Defined.

Lemma find_app_covered {A : Type} (f : A → bool) (l more : list A) :
  (∀ y, y ∈ more → f y = true → existsb f l = true) →
  List.find f (l ++ more) = List.find f l.
Proof.
  intros Hcov. induction l as [|x l IH].
  - cbn [app]. destruct (List.find f more) as [y|] eqn:Hy; [|done].
    apply find_some in Hy as [Hin Hfy].
    specialize (Hcov y (proj2 (list_elem_of_In _ _) Hin) Hfy). done.
  - cbn [app List.find]. destruct (f x) eqn:Hx; [done|]. apply IH.
    intros y Hy Hfy. specialize (Hcov y Hy Hfy). cbn [existsb] in Hcov.
    by rewrite Hx in Hcov.
Qed.

Lemma fold_left_ext_step {A B : Type} (f g : A → B → A) (l : list B) (a : A) :
  (∀ x y, f x y = g x y) → fold_left f l a = fold_left g l a.
Proof.
  intros Hfg. revert a. induction l as [|y l IH]; intros a; [done|].
  cbn [fold_left]. by rewrite Hfg, IH.
Qed.

(** X14.  Records added after the input whose rsids all occur in the input
    already change neither result list: only the first record of each rsid
    is ever reported. *)
Theorem trait_results_ignore_later_duplicates (entries more : list GenotypeEntry) :
  Forall (λ e, existsb (λ e0, String.eqb (rsid e0) (rsid e)) entries = true) more →
  analyzeTraits (entries ++ more) = analyzeTraits entries ∧
  analyzeWellness (entries ++ more) = analyzeWellness entries.
Proof.
  intros Hmore.
  assert (∀ acc trait, traitStep (entries ++ more) acc trait =
                       traitStep entries acc trait) as Hstep.
  { intros acc trait. unfold traitStep. rewrite find_app_covered; [done|].
    intros y Hy Hfy. rewrite Forall_forall in Hmore.
    specialize (Hmore y Hy). apply String.eqb_eq in Hfy. by rewrite <- Hfy. }
  unfold analyzeTraits, analyzeWellness.
  by rewrite !(fold_left_ext_step _ _ _ _ Hstep).
Qed.

Lemma trait_results_ignore_later_duplicates_witness :
  analyzeTraits ([mkEntry "rs671" "12" 7 "AG" "GG" "" "GG"] ++
                 [mkEntry "rs671" "12" 7 "AA" "AA" "AA" "AA"]) =
  analyzeTraits [mkEntry "rs671" "12" 7 "AG" "GG" "" "GG"].
Proof.
  apply (trait_results_ignore_later_duplicates
           [mkEntry "rs671" "12" 7 "AG" "GG" "" "GG"]
           [mkEntry "rs671" "12" 7 "AA" "AA" "AA" "AA"]).
  repeat constructor.
Defined.

Ltac allele_order :=
  cbn -[Ascii.eqb ascii_dec];
  repeat match goal with
         | |- context [ascii_dec ?x ?y] => destruct (ascii_dec x y)
         | |- context [Ascii.eqb ?x ?y] => destruct (Ascii.eqb x y)
         end;
  try reflexivity; try congruence.

(** X15.  For every trait of the two tables but rs1815739 and rs1801133, the
    interpretation of a two-character genotype does not depend on the order
    of its two alleles.  Those two traits compare with fixed strings and
    read the heterozygote in one order only: CT is read as the mixed type,
    respectively as slightly reduced efficiency, and TC falls through to
    the last label. *)
Theorem interpretation_allele_order :
  (∀ trait : TraitDefinition.t,
     trait ∈ knownTraits ++ wellnessTraits →
     TraitDefinition.rsid trait ≠ "rs1815739"%string →
     TraitDefinition.rsid trait ≠ "rs1801133"%string →
     ∀ a b : ascii,
       TraitDefinition.interpretation trait (String b (String a EmptyString)) =
       TraitDefinition.interpretation trait (String a (String b EmptyString))) ∧
  (∃ trait : TraitDefinition.t,
     trait ∈ knownTraits ∧ TraitDefinition.rsid trait = "rs1815739"%string ∧
     TraitDefinition.interpretation trait "CT" = "Mixed Muscle Type (RX)"%string ∧
     TraitDefinition.interpretation trait "TC" = "Endurance Type (XX)"%string) ∧
  (∃ trait : TraitDefinition.t,
     trait ∈ wellnessTraits ∧ TraitDefinition.rsid trait = "rs1801133"%string ∧
     TraitDefinition.interpretation trait "CT" =
       "Slightly reduced efficiency (~80%)."%string ∧
     TraitDefinition.interpretation trait "TC" =
       "Normal folate metabolism."%string).
Proof.
  split; [|split].
  - intros trait Hin H1 H2 a b.
    unfold knownTraits, wellnessTraits in Hin. cbn [app] in Hin.
    repeat (apply elem_of_cons in Hin as [-> | Hin];
            [first [by destruct H1 | by destruct H2 | allele_order]|]).
    by apply elem_of_nil in Hin.
  - eexists. split; [do 7 apply list_elem_of_further; apply list_elem_of_here|].
    by vm_compute.
  - eexists. split; [do 1 apply list_elem_of_further; apply list_elem_of_here|].
    by vm_compute.
Qed.

Lemma interpretation_allele_order_witness :
  (if includes "GA" "A" then "Likely has Alcohol Flush Reaction"%string
   else "Tolerant to Alcohol"%string) =
  (if includes "AG" "A" then "Likely has Alcohol Flush Reaction"%string
   else "Tolerant to Alcohol"%string).
Proof.
  refine (proj1 interpretation_allele_order
            (TraitDefinition.mk "rs671" "Alcohol Flush Reaction (ALDH2)"
               "Asian flush reaction to alcohol." None
               (λ g, if includes g "A" then "Likely has Alcohol Flush Reaction"
                     else "Tolerant to Alcohol")%string) _ _ _ "A"%char "G"%char).
  - vm_compute. do 9 apply list_elem_of_further. apply list_elem_of_here.
  - by vm_compute.
  - by vm_compute.
Defined.

End Traits.

(** ** The parser *)

Section Parser.

Lemma append_nil_l (s : string) : String.append EmptyString s = s.
Proof. reflexivity. Qed.

Lemma append_cons (c : ascii) (s t : string) :
  String.append (String c s) t = String c (String.append s t).
Proof. reflexivity. Qed.

Lemma splitOnChar_cons (sep : ascii) (s : string) :
  ∃ (t : string) (ts : list string), splitOnChar sep s = t :: ts.
Proof.
  destruct s as [|c s]; cbn [splitOnChar]; [by eexists _, _|].
  destruct (Ascii.eqb c sep); [by eexists _, _|].
  destruct (splitOnChar sep s); by eexists _, _.
Qed.

Lemma splitOnChar_app (sep : ascii) (s1 s2 : string) :
  splitOnChar sep (s1 ++ String sep s2) =
  splitOnChar sep s1 ++ splitOnChar sep s2.
Proof.
  induction s1 as [|c s1 IH].
  - rewrite append_nil_l. cbn [splitOnChar]. by rewrite Ascii.eqb_refl.
  - rewrite append_cons. cbn [splitOnChar]. rewrite IH.
    destruct (Ascii.eqb c sep); [done|].
    by destruct (splitOnChar_cons sep s1) as (t & ts & ->).
Qed.

Lemma splitOnChar_noNewline (s : string) :
  noNewline s = true → splitOnChar "010" s = [s].
Proof.
  unfold noNewline, split. induction s as [|c s IH]; [done|].
  cbn [list_ascii_of_string forallb splitOnChar].
  intros [Hc Hs]%andb_true_iff. apply negb_true_iff in Hc.
  by rewrite Hc, (IH Hs).
Qed.

Lemma lineStep_state (es : list ParsedEntry) (cs : list string) (line : string) :
  lineStep (es, cs) line =
  (es ++ lineEntries line,
   addAll cs (map parsed_chromosome (lineEntries line))).
Proof.
  unfold lineEntries, lineStep.
  destruct (falsy (trim line) || String.prefix "#" (trim line));
    [by rewrite app_nil_r|].
  destruct (length (splitWhitespace (trim line)) <? 7)%nat;
    [by rewrite app_nil_r|].
  destruct (splitWhitespace (trim line)) as [|t1 [|t2 [|t3 [|t4 [|t5 [|t6 [|t7 rest]]]]]]];
    by rewrite ?app_nil_r.
Qed.

Lemma lines_fold (lines : list string) (es : list ParsedEntry) (cs : list string) :
  fold_left lineStep lines (es, cs) =
  (es ++ flat_map lineEntries lines,
   addAll cs (map parsed_chromosome (flat_map lineEntries lines))).
Proof.
  revert es cs. induction lines as [|line lines IH]; intros es cs.
  - by rewrite app_nil_r.
  - cbn [fold_left flat_map]. rewrite lineStep_state, IH.
    unfold addAll. by rewrite <- app_assoc, map_app, fold_left_app.
Qed.

Lemma parseGenomeData_eq (content : string) :
  parseGenomeData content =
  let entries := flat_map lineEntries (splitOnChar "010" content) in
  {| ParsedData.entries := entries;
     ParsedData.metadata :=
       {| Metadata.count := Z.of_nat (length entries);
          Metadata.chromosomes := addAll [] (map parsed_chromosome entries) |} |}.
Proof. unfold parseGenomeData. by rewrite lines_fold. Qed.

Lemma lineEntries_cases (line : string) :
  lineEntries line =
  if lineSkipped line then []
  else match splitWhitespace (trim line) with
       | rsid :: chromosome :: positionStr :: father :: son1 :: son2 :: mother :: _ =>
           [{| parsed_rsid := rsid;
               parsed_chromosome := chromosome;
               parsed_position := parseInt10 positionStr;
               parsed_father := clean father;
               parsed_son1 := clean son1;
               parsed_son2 := clean son2;
               parsed_mother := clean mother |}]
       | _ => []
       end.
Proof.
  unfold lineEntries, lineStep, lineSkipped.
  destruct (falsy (trim line) || String.prefix "#" (trim line)); [done|].
  cbn [orb].
  destruct (length (splitWhitespace (trim line)) <? 7)%nat; [done|].
  by destruct (splitWhitespace (trim line)) as [|t1 [|t2 [|t3 [|t4 [|t5 [|t6 [|t7 rest]]]]]]].
Qed.

(** X16.  The parser works line by line.  The entries of two contents
    joined by a newline are the entries of the first followed by those of
    the second, and the counts add up.  A line without newline that is
    blank, starts with [#] after trimming, or has fewer than seven fields
    contributes nothing wherever it stands; any other line contributes
    exactly one entry. *)
Theorem parser_line_by_line :
  (∀ content1 content2 : string,
     let d1 := parseGenomeData content1 in
     let d2 := parseGenomeData content2 in
     let d := parseGenomeData (content1 ++ String "010" content2) in
     ParsedData.entries d = ParsedData.entries d1 ++ ParsedData.entries d2 ∧
     Metadata.count (ParsedData.metadata d) =
       Metadata.count (ParsedData.metadata d1) +
       Metadata.count (ParsedData.metadata d2)) ∧
  (∀ content1 line content2 : string,
     noNewline line = true → lineSkipped line = true →
     ParsedData.entries
       (parseGenomeData (content1 ++ String "010" (line ++ String "010" content2))) =
     ParsedData.entries (parseGenomeData (content1 ++ String "010" content2))) ∧
  (∀ line : string,
     noNewline line = true →
     length (ParsedData.entries (parseGenomeData line)) =
     if lineSkipped line then 0%nat else 1%nat).
Proof.
  split; [|split].
  - intros content1 content2. cbn zeta. rewrite !parseGenomeData_eq. cbn zeta.
    cbn [ParsedData.entries ParsedData.metadata Metadata.count].
    rewrite splitOnChar_app, flat_map_app, length_app. split; [done | lia].
  - intros content1 line content2 Hnl Hskip. rewrite !parseGenomeData_eq.
    cbn zeta. cbn [ParsedData.entries].
    rewrite !splitOnChar_app, !flat_map_app, (splitOnChar_noNewline _ Hnl).
    cbn [flat_map]. by rewrite lineEntries_cases, Hskip.
  - intros line Hnl. rewrite parseGenomeData_eq. cbn zeta.
    cbn [ParsedData.entries]. rewrite (splitOnChar_noNewline _ Hnl).
    cbn [flat_map]. rewrite app_nil_r, lineEntries_cases.
    destruct (lineSkipped line) eqn:Hskip; [done|].
    unfold lineSkipped in Hskip.
    apply orb_false_iff in Hskip as [_ Hlen%Nat.ltb_ge].
    destruct (splitWhitespace (trim line))
      as [|t1 [|t2 [|t3 [|t4 [|t5 [|t6 [|t7 rest]]]]]]];
      cbn [length] in *; (reflexivity || lia).
Qed.

Lemma parser_line_by_line_witness :
  ParsedData.entries
    (parseGenomeData ("rs1 1 100 AG AA GG AG" ++
                      String "010" ("# build 37" ++
                      String "010" "rs2 MT 73 A A A A"))) =
  ParsedData.entries
    (parseGenomeData ("rs1 1 100 AG AA GG AG" ++ String "010" "rs2 MT 73 A A A A")).
Proof.
  apply (proj1 (proj2 parser_line_by_line)
           "rs1 1 100 AG AA GG AG" "# build 37" "rs2 MT 73 A A A A")%string;
    reflexivity.
Defined.

Lemma isField_cons (t : string) :
  isField t = true →
  ∃ (c : ascii) (t' : string),
    t = String c t' ∧ isWhiteSpace c = false ∧ wsFree t' = true.
Proof.
  destruct t as [|c t']; [done|]. unfold isField, wsFree, split.
  cbn [falsy String.eqb negb andb list_ascii_of_string forallb].
  intros [Hc Ht]%andb_true_iff. apply negb_true_iff in Hc. by exists c, t'.
Qed.

Lemma splitWhitespace_cons (s : string) :
  ∃ (t : string) (ts : list string), splitWhitespace s = t :: ts.
Proof.
  induction s as [|c s (t & ts & IH)]; [by eexists _, _|].
  cbn [splitWhitespace]. rewrite IH.
  destruct (isWhiteSpace c); [|by eexists _, _].
  destruct s as [|d s]; [by eexists _, _|].
  destruct (isWhiteSpace d); by eexists _, _.
Qed.

Lemma splitWhitespace_wsFree (s : string) :
  wsFree s = true → splitWhitespace s = [s].
Proof.
  unfold wsFree, split. induction s as [|c s IH]; [done|].
  cbn [list_ascii_of_string forallb splitWhitespace].
  intros [Hc Hs]%andb_true_iff. apply negb_true_iff in Hc.
  by rewrite Hc, (IH Hs).
Qed.

Lemma splitWhitespace_field_sep (t : string) (sep d : ascii) (r : string) :
  wsFree t = true → isWhiteSpace sep = true → isWhiteSpace d = false →
  splitWhitespace (String.append t (String sep (String d r))) =
  t :: splitWhitespace (String d r).
Proof.
  intros Ht Hsep Hd. unfold wsFree, split in Ht.
  induction t as [|c t IH].
  - rewrite append_nil_l. cbn [splitWhitespace]. by rewrite Hsep, Hd.
  - cbn [list_ascii_of_string forallb] in Ht.
    apply andb_true_iff in Ht as [Hc Ht]. apply negb_true_iff in Hc.
    rewrite append_cons.
    change (splitWhitespace (String c ?x))
      with (let tokens := splitWhitespace x in
            if isWhiteSpace c then
              match x with
              | String d' _ => if isWhiteSpace d' then tokens
                               else EmptyString :: tokens
              | EmptyString => EmptyString :: tokens
              end
            else match tokens with
                 | t0 :: ts => String c t0 :: ts
                 | [] => [String c EmptyString]
                 end).
    cbn zeta. by rewrite Hc, (IH Ht).
Qed.

Lemma joinWith_head (sep : ascii) (t : string) (rest : list string) :
  isField t = true →
  ∃ (c : ascii) (r : string),
    joinWith sep (t :: rest) = String c r ∧ isWhiteSpace c = false.
Proof.
  intros (c & t' & -> & Hc & _)%isField_cons.
  destruct rest as [|t2 rest]; cbn [joinWith]; [by exists c, t'|].
  rewrite append_cons. by eexists _, _.
Qed.

Lemma split_join (sep : ascii) (fields : list string) :
  isWhiteSpace sep = true → fields ≠ [] →
  Forall (λ t, isField t = true) fields →
  splitWhitespace (joinWith sep fields) = fields.
Proof.
  intros Hsep Hne Hall. induction Hall as [|t rest Ht Hrest IH]; [done|].
  destruct rest as [|t2 rest].
  - cbn [joinWith]. apply splitWhitespace_wsFree.
    unfold isField in Ht. by apply andb_true_iff in Ht as [_ Ht].
  - change (joinWith sep (t :: t2 :: rest))
      with (String.append t (String sep (joinWith sep (t2 :: rest)))).
    apply Forall_cons in Hrest as Hrest'. destruct Hrest' as [Ht2 _].
    destruct (joinWith_head sep t2 rest Ht2) as (d & r & Hj & Hd).
    rewrite Hj, splitWhitespace_field_sep; [|by apply andb_true_iff in Ht as [_ Ht]|done..].
    rewrite <- Hj, IH; done.
Qed.

Lemma trimStart_head (c : ascii) (r : string) :
  isWhiteSpace c = false → trimStart (String c r) = String c r.
Proof. intros Hc. cbn [trimStart]. by rewrite Hc. Qed.

Lemma trimEnd_field (t : string) : isField t = true → trimEnd t = t.
Proof.
  intros (c & t' & -> & Hc & Ht)%isField_cons. revert c Hc.
  unfold wsFree, split in Ht.
  induction t' as [|d t' IH]; intros c Hc.
  - cbn [trimEnd]. by rewrite Hc.
  - cbn [list_ascii_of_string forallb] in Ht.
    apply andb_true_iff in Ht as [Hd Ht]. apply negb_true_iff in Hd.
    change (trimEnd (String c (String d t')))
      with (match trimEnd (String d t') with
            | EmptyString =>
                if isWhiteSpace c then EmptyString else String c EmptyString
            | kept => String c kept
            end).
    by rewrite (IH Ht d Hd).
Qed.

Lemma trimEnd_prefix (s J : string) :
  trimEnd J = J → J ≠ EmptyString → trimEnd (String.append s J) = String.append s J.
Proof.
  intros HJ Hne. induction s as [|c s IH]; [done|].
  rewrite append_cons. cbn [trimEnd]. rewrite IH.
  destruct (String.append s J) eqn:Heq; [|done].
  destruct s; [by rewrite append_nil_l in Heq | by rewrite append_cons in Heq].
Qed.

Lemma trimEnd_join (sep : ascii) (fields : list string) :
  Forall (λ t, isField t = true) fields →
  trimEnd (joinWith sep fields) = joinWith sep fields.
Proof.
  induction 1 as [|t rest Ht Hrest IH]; [done|].
  destruct rest as [|t2 rest]; [by apply trimEnd_field|].
  change (joinWith sep (t :: t2 :: rest))
    with (String.append t (String sep (joinWith sep (t2 :: rest)))).
  apply Forall_cons in Hrest as [Ht2 _].
  destruct (joinWith_head sep t2 rest Ht2) as (d & r & Hj & Hd).
  apply trimEnd_prefix; [|done].
  cbn [trimEnd]. rewrite IH, Hj. done.
Qed.

Lemma noNewline_wsFree (s : string) : wsFree s = true → noNewline s = true.
Proof.
  unfold wsFree, noNewline. intros Hs. apply forallb_forall. intros c Hc.
  rewrite forallb_forall in Hs. specialize (Hs c Hc).
  destruct (Ascii.eqb_spec c "010") as [->|]; [by vm_compute in Hs | done].
Qed.

Lemma noNewline_append (s r : string) (sep : ascii) :
  noNewline s = true → sep ≠ "010"%char → noNewline r = true →
  noNewline (String.append s (String sep r)) = true.
Proof.
  unfold noNewline, split. intros Hs Hsep Hr. induction s as [|c s IH].
  - rewrite append_nil_l. cbn [list_ascii_of_string forallb].
    rewrite Hr. by destruct (Ascii.eqb_spec sep "010").
  - rewrite append_cons. cbn [list_ascii_of_string forallb] in *.
    apply andb_true_iff in Hs as [-> Hs]. by rewrite (IH Hs).
Qed.

Lemma noNewline_join (sep : ascii) (fields : list string) :
  sep ≠ "010"%char →
  Forall (λ t, isField t = true) fields →
  noNewline (joinWith sep fields) = true.
Proof.
  intros Hsep. induction 1 as [|t rest Ht Hrest IH]; [done|].
  apply andb_true_iff in Ht as [_ Ht].
  destruct rest as [|t2 rest]; [by apply noNewline_wsFree|].
  change (joinWith sep (t :: t2 :: rest))
    with (String.append t (String sep (joinWith sep (t2 :: rest)))).
  apply noNewline_append; [by apply noNewline_wsFree | done | done].
Qed.

Lemma prefix_hash_head (c : ascii) (r r' : string) :
  String.prefix "#" (String c r) = String.prefix "#" (String c r').
Proof.
  cbn [String.prefix]. destruct (ascii_dec "#" c); [|done].
  by destruct r, r'.
Qed.

(** X17.  A line of at least seven fields, each not empty and free of white
    space, written with one white-space character other than the newline
    between them and not starting with [#], is parsed into exactly one
    entry: the fields are read in the order rsid, chromosome, position,
    father, son1, son2, mother; the position goes through [parseInt] with
    radix 10, the four genotypes through [clean], and fields after the
    seventh are ignored. *)
Theorem parser_reads_seven_fields (sep : ascii)
    (id chrom pos fa s1 s2 mo : string) (extra : list string) :
  isWhiteSpace sep = true → sep ≠ "010"%char →
  Forall (λ t, isField t = true)
         (id :: chrom :: pos :: fa :: s1 :: s2 :: mo :: extra) →
  String.prefix "#" id = false →
  parseGenomeData
    (joinWith sep (id :: chrom :: pos :: fa :: s1 :: s2 :: mo :: extra)) =
  {| ParsedData.entries :=
       [{| parsed_rsid := id;
           parsed_chromosome := chrom;
           parsed_position := parseInt10 pos;
           parsed_father := clean fa;
           parsed_son1 := clean s1;
           parsed_son2 := clean s2;
           parsed_mother := clean mo |}];
     ParsedData.metadata :=
       {| Metadata.count := 1; Metadata.chromosomes := [chrom] |} |}.
Proof.
  intros Hsep Hnl Hfields Hhash.
  set (fields := id :: chrom :: pos :: fa :: s1 :: s2 :: mo :: extra) in *.
  rewrite parseGenomeData_eq. cbn zeta.
  rewrite (splitOnChar_noNewline _ (noNewline_join sep fields Hnl Hfields)).
  cbn [flat_map]. rewrite app_nil_r, lineEntries_cases.
  assert (trim (joinWith sep fields) = joinWith sep fields) as Htrim.
  { unfold trim.
    destruct (joinWith_head sep id (chrom :: pos :: fa :: s1 :: s2 :: mo :: extra))
      as (c & r & Hj & Hc); [by apply Forall_cons in Hfields as [? _]|].
    fold fields in Hj. rewrite Hj, (trimStart_head c r Hc), <- Hj.
    by apply trimEnd_join. }
  assert (lineSkipped (joinWith sep fields) = false) as Hskip.
  { unfold lineSkipped. rewrite Htrim, (split_join sep fields Hsep) by done.
    destruct (joinWith_head sep id (chrom :: pos :: fa :: s1 :: s2 :: mo :: extra))
      as (c & r & Hj & Hc); [by apply Forall_cons in Hfields as [? _]|].
    fold fields in Hj. rewrite Hj.
    apply Forall_cons in Hfields as [(c' & id' & Hid & _)%isField_cons _].
    assert (c' = c) as ->.
    { unfold fields in Hj. cbn [joinWith] in Hj. rewrite Hid, append_cons in Hj.
      by injection Hj. }
    rewrite (prefix_hash_head c r id'), <- Hid, Hhash. done. }
  rewrite Hskip, Htrim, (split_join sep fields Hsep) by done.
  done.
Qed.

Lemma parser_reads_seven_fields_witness :
  parseGenomeData
    (joinWith "009" ["rs4680"; "22"; "19951271"; "AG"; "--"; "GG"; "AA"; "note"]) =
  {| ParsedData.entries :=
       [{| parsed_rsid := "rs4680";
           parsed_chromosome := "22";
           parsed_position := parseInt10 "19951271";
           parsed_father := clean "AG";
           parsed_son1 := clean "--";
           parsed_son2 := clean "GG";
           parsed_mother := clean "AA" |}];
     ParsedData.metadata :=
       {| Metadata.count := 1; Metadata.chromosomes := ["22"%string] |} |}.
Proof.
  apply (parser_reads_seven_fields "009"
           "rs4680" "22" "19951271" "AG" "--" "GG" "AA" ["note"%string]).
  - reflexivity.
  - discriminate.
  - repeat constructor.
  - reflexivity.
Defined.

Lemma setAdd_elem (c x : string) (cs : list string) :
  x ∈ setAdd c cs ↔ x = c ∨ x ∈ cs.
Proof.
  unfold setAdd. destruct (existsb (String.eqb c) cs) eqn:Hex.
  - apply existsb_exists in Hex as (y & Hy & ->%String.eqb_eq).
    apply list_elem_of_In in Hy. split; [tauto | by intros [->|]].
  - rewrite elem_of_app, list_elem_of_singleton. tauto.
Qed.

Lemma setAdd_NoDup (c : string) (cs : list string) :
  NoDup cs → NoDup (setAdd c cs).
Proof.
  intros Hcs. unfold setAdd. destruct (existsb (String.eqb c) cs) eqn:Hex; [done|].
  apply NoDup_app. split; [done|]. split; [|apply NoDup_singleton].
  intros x Hx ->%list_elem_of_singleton.
  assert (existsb (String.eqb c) cs = true); [|congruence].
  apply existsb_exists. exists c. split; [by apply list_elem_of_In|].
  apply String.eqb_refl.
Qed.

Lemma addAll_props (l cs : list string) :
  NoDup cs →
  NoDup (addAll cs l) ∧
  (∀ x, x ∈ addAll cs l ↔ x ∈ cs ∨ x ∈ l) ∧
  ∃ l', addAll cs l = cs ++ l' ∧ sublist l' l.
Proof.
  revert cs. unfold addAll. induction l as [|c l IH]; intros cs Hcs.
  - cbn [fold_left]. split; [done|]. split.
    + intros x. rewrite elem_of_nil. tauto.
    + exists []. by rewrite app_nil_r.
  - cbn [fold_left].
    destruct (IH (setAdd c cs) (setAdd_NoDup c cs Hcs)) as (Hnd & Hel & l' & Heq & Hsub).
    split; [done|]. split.
    + intros x. rewrite Hel, setAdd_elem, elem_of_cons. tauto.
    + rewrite Heq. unfold setAdd. destruct (existsb (String.eqb c) cs).
      * exists l'. split; [done|]. by apply sublist_cons.
      * exists (c :: l'). split; [by rewrite <- app_assoc|]. by apply sublist_skip.
Qed.

Lemma existsb_eqb_snoc (d c : string) (cs : list string) :
  existsb (String.eqb d) (cs ++ [c]) =
  existsb (String.eqb d) cs || String.eqb d c.
Proof. rewrite existsb_app. cbn [existsb]. by rewrite orb_false_r. Qed.

Lemma addAll_firstOccurrences (l cs : list string) :
  addAll cs l =
  cs ++ List.filter (λ d, negb (existsb (String.eqb d) cs)) (firstOccurrences l).
Proof.
  revert cs. unfold addAll. induction l as [|c l IH]; intros cs.
  - cbn [fold_left firstOccurrences List.filter]. by rewrite app_nil_r.
  - cbn [fold_left firstOccurrences List.filter]. rewrite IH. unfold setAdd.
    destruct (existsb (String.eqb c) cs) eqn:Hex; cbn [negb].
    + f_equal. rewrite filter_filter_andb. apply filter_ext_eq. intros d.
      destruct (String.eqb_spec d c) as [->|Hne]; cbn [negb andb]; [|done].
      by rewrite Hex.
    + rewrite <- app_assoc. cbn [app]. do 2 f_equal.
      rewrite filter_filter_andb. apply filter_ext_eq. intros d.
      rewrite existsb_eqb_snoc, negb_orb. apply andb_comm.
Qed.

(** X18.  The metadata of the parsed data: [count] is the number of
    entries, and [chromosomes] is the list of the chromosome labels of the
    entries with every label kept at its first appearance and dropped
    afterwards, so that the labels 1, 2, 1 give 1, 2.  Hence it has no
    repetition, holds exactly the labels of the entries, and is a
    subsequence of them. *)
Theorem parser_metadata (content : string) :
  let d := parseGenomeData content in
  let labels := map parsed_chromosome (ParsedData.entries d) in
  Metadata.count (ParsedData.metadata d) =
    Z.of_nat (length (ParsedData.entries d)) ∧
  Metadata.chromosomes (ParsedData.metadata d) = firstOccurrences labels ∧
  firstOccurrences ["1"; "2"; "1"; "MT"; "2"]%string = ["1"; "2"; "MT"]%string ∧
  NoDup (Metadata.chromosomes (ParsedData.metadata d)) ∧
  (∀ c : string, c ∈ Metadata.chromosomes (ParsedData.metadata d) ↔ c ∈ labels) ∧
  sublist (Metadata.chromosomes (ParsedData.metadata d)) labels.
Proof.
  cbn zeta. rewrite parseGenomeData_eq. cbn zeta.
  cbn [ParsedData.entries ParsedData.metadata Metadata.count Metadata.chromosomes].
  set (labels := map parsed_chromosome _).
  destruct (addAll_props labels [] (NoDup_nil_2 (A:=string))) as (Hnd & Hel & l' & Heq & Hsub).
  split; [done|]. split.
  { rewrite addAll_firstOccurrences. cbn [app existsb negb].
    clear. induction (firstOccurrences labels) as [|c l IH]; [done|].
    cbn [List.filter]. by rewrite IH. }
  split; [by vm_compute|]. split; [done|]. split.
  - intros c. rewrite Hel, elem_of_nil. tauto.
  - by rewrite Heq.
Qed.

Lemma trimStart_result (s : string) :
  trimStart s = EmptyString ∨
  ∃ (c : ascii) (r : string), trimStart s = String c r ∧ isWhiteSpace c = false.
Proof.
  induction s as [|c s IH]; [by left|]. cbn [trimStart].
  destruct (isWhiteSpace c) eqn:Hc; [done|]. right. by exists c, s.
Qed.

Lemma trimEnd_idem (s : string) : trimEnd (trimEnd s) = trimEnd s.
Proof.
  induction s as [|c s IH]; [done|]. cbn [trimEnd].
  destruct (trimEnd s) as [|d k] eqn:Hk.
  - destruct (isWhiteSpace c) eqn:Hc; [done|]. cbn [trimEnd]. by rewrite Hc.
  - change (trimEnd (String c (String d k)))
      with (match trimEnd (String d k) with
            | EmptyString =>
                if isWhiteSpace c then EmptyString else String c EmptyString
            | kept => String c kept
            end).
    by rewrite IH.
Qed.

Lemma trimEnd_head (c : ascii) (r : string) :
  isWhiteSpace c = false → ∃ r', trimEnd (String c r) = String c r'.
Proof.
  intros Hc. cbn [trimEnd]. destruct (trimEnd r); [|by eexists].
  rewrite Hc. by eexists.
Qed.

Lemma trim_result (line : string) :
  trim line = EmptyString ∨
  (trimEnd (trim line) = trim line ∧
   ∃ (c : ascii) (r : string), trim line = String c r ∧ isWhiteSpace c = false).
Proof.
  unfold trim. destruct (trimStart_result line) as [->|(c & r & -> & Hc)];
    [by left|].
  right. split; [apply trimEnd_idem|].
  destruct (trimEnd_head c r Hc) as (r' & ->). by exists c, r'.
Qed.

Lemma wsFree_cons (c : ascii) (t : string) :
  wsFree (String c t) = negb (isWhiteSpace c) && wsFree t.
Proof. reflexivity. Qed.

Lemma splitWhitespace_tokens (s : string) :
  trimEnd s = s → s ≠ EmptyString →
  ∃ (t : string) (ts : list string),
    splitWhitespace s = t :: ts ∧
    Forall (λ x, isField x = true) ts ∧
    wsFree t = true ∧
    (∀ (c : ascii) (r : string),
       s = String c r → isWhiteSpace c = false → ∃ t', t = String c t').
Proof.
  induction s as [|c s IH]; [done|]. intros Htrim _.
  destruct s as [|d s].
  - cbn [trimEnd] in Htrim. destruct (isWhiteSpace c) eqn:Hc; [done|].
    exists (String c EmptyString), []. cbn [splitWhitespace]. rewrite Hc.
    split; [done|]. split; [done|]. split; [by rewrite wsFree_cons, Hc|].
    intros c' r [= <- <-] _. by eexists.
  - assert (trimEnd (String d s) = String d s) as Hrest.
    { change (trimEnd (String c (String d s)))
        with (match trimEnd (String d s) with
              | EmptyString =>
                  if isWhiteSpace c then EmptyString else String c EmptyString
              | kept => String c kept
              end) in Htrim.
      destruct (trimEnd (String d s)); [by destruct (isWhiteSpace c)|].
      congruence. }
    destruct (IH Hrest ltac:(done)) as (t & ts & Hsplit & Hts & Ht & Hhead).
    change (splitWhitespace (String c (String d s)))
      with (let tokens := splitWhitespace (String d s) in
            if isWhiteSpace c then
              if isWhiteSpace d then tokens else EmptyString :: tokens
            else match tokens with
                 | t0 :: ts0 => String c t0 :: ts0
                 | [] => [String c EmptyString]
                 end).
    cbn zeta. rewrite Hsplit.
    destruct (isWhiteSpace c) eqn:Hc.
    + destruct (isWhiteSpace d) eqn:Hd.
      * exists t, ts. split; [done|]. split; [done|]. split; [done|].
        intros c' r [= <- <-] Hc'. congruence.
      * exists EmptyString, (t :: ts). split; [done|]. split.
        -- constructor; [|done]. destruct (Hhead d s eq_refl Hd) as (t' & ->).
           unfold isField. by rewrite Ht.
        -- split; [done|]. intros c' r [= <- <-] Hc'. congruence.
    + exists (String c t), ts. split; [done|]. split; [done|].
      split; [by rewrite wsFree_cons, Hc, Ht|].
      intros c' r [= <- <-] _. by eexists.
Qed.

Lemma trimmed_fields (line : string) :
  trim line ≠ EmptyString →
  Forall (λ x, isField x = true) (splitWhitespace (trim line)) ∧
  ∃ (c : ascii) (r t' : string) (ts : list string),
    trim line = String c r ∧ splitWhitespace (trim line) = String c t' :: ts.
Proof.
  intros Hne. destruct (trim_result line) as [|(Htrim & c & r & Hs & Hc)]; [done|].
  destruct (splitWhitespace_tokens _ Htrim Hne) as (t & ts & Hsplit & Hts & Ht & Hhead).
  destruct (Hhead c r Hs Hc) as (t' & ->).
  rewrite Hsplit. split.
  - constructor; [|done]. unfold isField. by rewrite Ht.
  - by exists c, r, t', ts.
Qed.

Lemma clean_props (g : string) :
  clean g ≠ "--"%string ∧ clean g ≠ "__"%string ∧
  (wsFree g = true → wsFree (clean g) = true).
Proof.
  unfold clean.
  destruct (String.eqb_spec g "--") as [->|H1]; [done|].
  destruct (String.eqb_spec g "__") as [->|H2]; done.
Qed.

Lemma clean_field (g : string) :
  isField g = true →
  clean g ≠ "--"%string ∧ clean g ≠ "__"%string ∧ wsFree (clean g) = true.
Proof.
  intros [_ Hg]%andb_true_iff. destruct (clean_props g) as (H1 & H2 & H3).
  auto.
Qed.

Lemma lineEntries_invariants (line : string) (e : ParsedEntry) :
  e ∈ lineEntries line →
  isField (parsed_rsid e) = true ∧
  isField (parsed_chromosome e) = true ∧
  String.prefix "#" (parsed_rsid e) = false ∧
  Forall (λ g, g ≠ "--"%string ∧ g ≠ "__"%string ∧ wsFree g = true)
         [parsed_father e; parsed_son1 e; parsed_son2 e; parsed_mother e].
Proof.
  rewrite lineEntries_cases. destruct (lineSkipped line) eqn:Hskip;
    [by intros ?%elem_of_nil|].
  unfold lineSkipped in Hskip.
  apply orb_false_iff in Hskip as [[Hne Hhash]%orb_false_iff _].
  assert (trim line ≠ EmptyString) as Hne'.
  { intros Heq. by rewrite Heq in Hne. }
  destruct (trimmed_fields line Hne') as (Hfields & c & r & t' & ts & Hs & Hsplit).
  rewrite Hs in Hhash. rewrite (prefix_hash_head c r t') in Hhash.
  rewrite Hsplit in *.
  destruct ts as [|t2 [|t3 [|t4 [|t5 [|t6 [|t7 rest]]]]]];
    try by intros ?%elem_of_nil.
  intros ->%list_elem_of_singleton.
  cbn [parsed_rsid parsed_chromosome parsed_position parsed_father parsed_son1
       parsed_son2 parsed_mother].
  repeat (apply Forall_cons in Hfields as [? Hfields]).
  split; [done|]. split; [done|]. split; [done|].
  repeat (constructor; [by apply clean_field|]). constructor.
Qed.

Lemma parsed_entries_from_lines (content : string) (e : ParsedEntry) :
  e ∈ ParsedData.entries (parseGenomeData content) →
  ∃ line : string, e ∈ lineEntries line.
Proof.
  rewrite parseGenomeData_eq. cbn zeta. cbn [ParsedData.entries].
  rewrite list_elem_of_In, in_flat_map. intros (line & _ & He).
  exists line. by apply list_elem_of_In.
Qed.

(** X19.  What every parsed entry satisfies, whatever the content: its rsid
    and chromosome are not empty and free of white space, its rsid does not
    start with [#], and none of its four genotypes is one of the no-call
    tokens [--] and [__] or contains white space. *)
Theorem parsed_entry_invariants (content : string) (e : ParsedEntry) :
  e ∈ ParsedData.entries (parseGenomeData content) →
  isField (parsed_rsid e) = true ∧
  isField (parsed_chromosome e) = true ∧
  String.prefix "#" (parsed_rsid e) = false ∧
  Forall (λ g, g ≠ "--"%string ∧ g ≠ "__"%string ∧ wsFree g = true)
         [parsed_father e; parsed_son1 e; parsed_son2 e; parsed_mother e].
Proof.
  intros (line & He)%parsed_entries_from_lines.
  by apply (lineEntries_invariants line).
Qed.

Lemma parsed_entry_invariants_witness :
  isField "MT" = true ∧
  Forall (λ g, g ≠ "--"%string ∧ g ≠ "__"%string ∧ wsFree g = true)
         [""%string; "A"%string; ""%string; "A"%string].
Proof.
  destruct (parsed_entry_invariants
              ("# mito" ++ String "010" "i703360 MT 114 -- A __ A")
              (mkParsed "i703360" "MT" (Number.Num 114) "" "A" "" "A"))
    as (_ & Hc & _ & Hg).
  - vm_compute. apply list_elem_of_here.
  - split; [exact Hc | exact Hg].
Defined.

(** X20.  Parser and classifier together.  A parsed entry with an integer
    position, taken as a record of the analyses, never has the mother [--],
    so the classifier's test for that token never fires on parsed input:
    the preferred genotype is the mother's when it is not empty and son1's
    otherwise. *)
Theorem parsed_preference_is_mother_or_son1 (content : string)
    (pe : ParsedEntry) (e : GenotypeEntry) :
  pe ∈ ParsedData.entries (parseGenomeData content) →
  toGenotypeEntry pe = Some e →
  mother e ≠ "--"%string ∧
  preferredAllele e = preferredBySpec e ∧
  (preferredAllele e = if falsy (mother e) then son1 e else mother e).
Proof.
  intros (line & (_ & _ & _ & Hg)%lineEntries_invariants)
    %parsed_entries_from_lines Hto.
  assert (mother e = parsed_mother pe) as Hm.
  { unfold toGenotypeEntry in Hto.
    destruct (parsed_position pe) as [| |[z [| |]]]; try done.
    by injection Hto as <-. }
  repeat (apply Forall_cons in Hg as [? Hg]).
  assert (mother e ≠ "--"%string) as Hne by (rewrite Hm; tauto).
  split; [done|].
  unfold preferredAllele, preferredBySpec.
  destruct (String.eqb_spec (mother e) "--"); [done|].
  rewrite andb_true_r. split; [done|]. by destruct (falsy (mother e)).
Qed.

Lemma parsed_preference_is_mother_or_son1_witness :
  preferredAllele (mkEntry "i703360" "MT" 114 "" "A" "" "") =
  preferredBySpec (mkEntry "i703360" "MT" 114 "" "A" "" "").
Proof.
  apply (parsed_preference_is_mother_or_son1
           "i703360 MT 114 -- A __ --"
           (mkParsed "i703360" "MT" (Number.Num 114) "" "A" "" "")
           (mkEntry "i703360" "MT" 114 "" "A" "" "")).
  - vm_compute. apply list_elem_of_here.
  - reflexivity.
Defined.

End Parser.

(** ** The position lookup on called genotypes *)

Section LookupPreference.

Lemma parsed_mother_called (content : string) (pe : ParsedEntry)
    (e : GenotypeEntry) :
  pe ∈ ParsedData.entries (parseGenomeData content) →
  toGenotypeEntry pe = Some e →
  mother e ≠ "--"%string.
Proof.
  intros (line & (_ & _ & _ & Hg)%lineEntries_invariants)
    %parsed_entries_from_lines Hto.
  assert (mother e = parsed_mother pe) as ->.
  { unfold toGenotypeEntry in Hto.
    destruct (parsed_position pe) as [| |[z [| |]]]; try done.
    by injection Hto as <-. }
  repeat (apply Forall_cons in Hg as [? Hg]). tauto.
Qed.

Lemma silent_called (p : Z) (l : list GenotypeEntry) :
  Forall (λ e, mother e ≠ "--"%string) l →
  silentAt p l →
  Forall (λ e, isMT e = true → position e = p → preferredBySpec e = ""%string) l.
Proof.
  unfold silentAt. induction 1 as [|e l He Hl IH]; [constructor|].
  intros [Hs Hrest]%Forall_cons. constructor; [|by apply IH].
  by rewrite <- (preferredAllele_called e He).
Qed.

(** C10.  The records of the classifier carry called genotypes: the parser
    replaces the no-call tokens by the empty string, so that no record it
    produces has the mother [--].  On such records the genotype the code
    prefers is the mother's if that is not empty, else son1's, and after
    the first loop the lookup holds, at each position, the preferred
    genotype of the last mitochondrial record at that position whose
    preferred genotype is not empty, and nothing if there is no such
    record.  A record that is repeated changes neither the lookup nor the
    result of the classifier, and a rule never has more tested markers than
    markers, however many records there are: duplicates overwrite, they are
    not counted twice. *)
Theorem mt_lookup_keeps_last_preferred (entries : list GenotypeEntry) :
  Forall (λ e, mother e ≠ "--"%string) entries →
  (∀ e : GenotypeEntry,
     e ∈ entries →
     preferredAllele e = preferredBySpec e ∧
     preferredBySpec e = if falsy (mother e) then son1 e else mother e) ∧
  (∀ p : Z,
     match gatherMtEntries entries !! p with
     | Some allele =>
         ∃ (before : list GenotypeEntry) (e : GenotypeEntry)
           (after : list GenotypeEntry),
           entries = before ++ e :: after ∧
           isMT e = true ∧ position e = p ∧
           preferredBySpec e = allele ∧ allele ≠ ""%string ∧
           Forall (λ e', isMT e' = true → position e' = p →
                         preferredBySpec e' = ""%string) after
     | None =>
         Forall (λ e', isMT e' = true → position e' = p →
                       preferredBySpec e' = ""%string) entries
     end) ∧
  (∀ (rules : list HaplogroupRule.t) (before after : list GenotypeEntry)
     (e : GenotypeEntry),
     gatherMtEntries (before ++ e :: e :: after) =
       gatherMtEntries (before ++ e :: after) ∧
     estimateHaplogroupsWith rules (before ++ e :: e :: after) =
       estimateHaplogroupsWith rules (before ++ e :: after)) ∧
  (∀ rule : HaplogroupRule.t,
     0 ≤ ruleMatches (gatherMtEntries entries) rule ∧
     ruleMatches (gatherMtEntries entries) rule ≤
       ruleTotal (gatherMtEntries entries) rule ∧
     ruleTotal (gatherMtEntries entries) rule ≤
       Z.of_nat (length (HaplogroupRule.markers rule))) ∧
  (∀ (content : string) (pe : ParsedEntry) (e : GenotypeEntry),
     pe ∈ ParsedData.entries (parseGenomeData content) →
     toGenotypeEntry pe = Some e →
     mother e ≠ "--"%string).
Proof.
  intros Hcalled.
  split; [|split; [|split; [|split; [|exact parsed_mother_called]]]].
  - intros e He. rewrite Forall_forall in Hcalled.
    split; [by apply preferredAllele_called, Hcalled|].
    unfold preferredBySpec. by destruct (falsy (mother e)).
  - intros p. pose proof (gather_lookup_last entries p) as Hlast.
    destruct (gatherMtEntries entries !! p) as [allele|].
    + destruct Hlast as (before & e & after & Heq & Hmt & Hp & Hpref & Hne & Hsil).
      rewrite Heq in Hcalled.
      apply Forall_app in Hcalled as [_ [He Hafter]%Forall_cons].
      exists before, e, after. split; [done|]. split; [done|]. split; [done|].
      split; [by rewrite <- (preferredAllele_called e He)|].
      split; [done|]. by apply silent_called.
    + by apply silent_called.
  - intros rules before after e. split; [apply gather_duplicate|].
    unfold estimateHaplogroupsWith. by rewrite gather_duplicate.
  - intros rule. destruct (rule_counts_bounds (gatherMtEntries entries) rule).
    split; [done|]. split; [done|].
    rewrite (proj1 (rule_counts_filter (gatherMtEntries entries) rule)).
    apply inj_le, List.filter_length_le.
Qed.

Lemma mt_lookup_keeps_last_preferred_witness :
  gatherMtEntries [mkEntry "i1" "MT" 7028 "" "C" "C" "T";
                   mkEntry "i2" "MT" 7028 "" "C" "C" "";
                   mkEntry "i3" "MT" 7028 "" "" "" ""] !! 7028 =
    Some "C"%string ∧
  preferredAllele (mkEntry "i1" "MT" 7028 "" "C" "C" "T") =
    preferredBySpec (mkEntry "i1" "MT" 7028 "" "C" "C" "T") ∧
  match gatherMtEntries [mkEntry "i1" "MT" 7028 "" "C" "C" "T";
                         mkEntry "i2" "MT" 7028 "" "C" "C" "";
                         mkEntry "i3" "MT" 7028 "" "" "" ""] !! 7028 with
  | Some allele =>
      ∃ (before : list GenotypeEntry) (e : GenotypeEntry)
        (after : list GenotypeEntry),
        [mkEntry "i1" "MT" 7028 "" "C" "C" "T";
         mkEntry "i2" "MT" 7028 "" "C" "C" "";
         mkEntry "i3" "MT" 7028 "" "" "" ""] = before ++ e :: after ∧
        isMT e = true ∧ position e = 7028 ∧
        preferredBySpec e = allele ∧ allele ≠ ""%string ∧
        Forall (λ e', isMT e' = true → position e' = 7028 →
                      preferredBySpec e' = ""%string) after
  | None =>
      Forall (λ e', isMT e' = true → position e' = 7028 →
                    preferredBySpec e' = ""%string)
             [mkEntry "i1" "MT" 7028 "" "C" "C" "T";
              mkEntry "i2" "MT" 7028 "" "C" "C" "";
              mkEntry "i3" "MT" 7028 "" "" "" ""]
  end.
Proof.
  destruct (mt_lookup_keeps_last_preferred
              [mkEntry "i1" "MT" 7028 "" "C" "C" "T";
               mkEntry "i2" "MT" 7028 "" "C" "C" "";
               mkEntry "i3" "MT" 7028 "" "" "" ""])
    as (Hpref & Hlook & _).
  - repeat (constructor; [discriminate|]). constructor.
  - split; [reflexivity|].
    split; [apply Hpref, list_elem_of_here | exact (Hlook 7028)].
Defined.

End LookupPreference.

Section LookupOrder.

Lemma silentAt_writer (p : Z) (l : list GenotypeEntry) (e : GenotypeEntry) :
  silentAt p l → e ∈ l → writesLookup e = true → position e ≠ p.
Proof.
  unfold silentAt. rewrite Forall_forall. intros Hsilent He Hw Hp.
  apply andb_true_iff in Hw as [Hmt Hne].
  rewrite (Hsilent e He Hmt Hp) in Hne. done.
Qed.

Lemma map_NoDup_inj {A B : Type} (f : A → B) (l : list A) (x y : A) :
  NoDup (map f l) → x ∈ l → y ∈ l → f x = f y → x = y.
Proof.
  induction l as [|z l IH]; [by intros _ ?%elem_of_nil|].
  cbn [map]. intros [Hz Hl]%NoDup_cons Hx Hy Hxy.
  apply elem_of_cons in Hx as [->|Hx]; apply elem_of_cons in Hy as [->|Hy].
  - done.
  - destruct Hz. rewrite Hxy. apply list_elem_of_In, in_map.
    by apply list_elem_of_In.
  - destruct Hz. rewrite <- Hxy. apply list_elem_of_In, in_map.
    by apply list_elem_of_In.
  - by apply IH.
Qed.

Lemma elem_of_List_filter {A : Type} (f : A → bool) (l : list A) (x : A) :
  x ∈ List.filter f l ↔ x ∈ l ∧ f x = true.
Proof. by rewrite !list_elem_of_In, filter_In. Qed.

Lemma gather_lookup_unique (entries : list GenotypeEntry) (p : Z) (a : string) :
  NoDup (map position (List.filter writesLookup entries)) →
  gatherMtEntries entries !! p = Some a ↔
  ∃ e : GenotypeEntry,
    e ∈ entries ∧ writesLookup e = true ∧ position e = p ∧
    preferredAllele e = a.
Proof.
  intros Hnd. pose proof (gather_lookup_last entries p) as Hlast.
  destruct (gatherMtEntries entries !! p) as [allele|].
  - destruct Hlast as (before & e0 & after & -> & Hmt & Hp & Hpref & Hne & _).
    assert (writesLookup e0 = true) as Hw0.
    { unfold writesLookup. rewrite Hmt, Hpref. cbn [andb].
      apply negb_true_iff, not_true_iff_false. by intros ?%falsy_true. }
    assert (e0 ∈ before ++ e0 :: after) as Hin0.
    { apply elem_of_app. right. apply list_elem_of_here. }
    split.
    + intros [= <-]. by exists e0.
    + intros (e & He & Hw & Hpe & <-). f_equal. rewrite <- Hpref.
      f_equal. apply (map_NoDup_inj position _ _ _ Hnd).
      * by apply elem_of_List_filter.
      * by apply elem_of_List_filter.
      * congruence.
  - split; [done|]. intros (e & He & Hw & Hpe & _).
    by destruct (silentAt_writer p entries e Hlast He Hw).
Qed.

(** X21.  The order of the records does not matter to the haplogroup
    estimate as long as no two MT records with a non-empty preferred
    genotype share a position: any rearrangement of such an input gives
    the same result. *)
Theorem classifier_order_independent (rules : list HaplogroupRule.t)
    (entries entries' : list GenotypeEntry) :
  Permutation entries entries' →
  NoDup (map position (List.filter writesLookup entries)) →
  estimateHaplogroupsWith rules entries = estimateHaplogroupsWith rules entries'.
Proof.
  intros Hperm Hnd.
  assert (Permutation (List.filter writesLookup entries)
                      (List.filter writesLookup entries')) as Hfp.
  { clear Hnd. induction Hperm as [|x l l' Hp IH|x y l|l l' l'' H1 IH1 H2 IH2].
    - done.
    - cbn [List.filter]. destruct (writesLookup x); [by constructor | done].
    - cbn [List.filter]. destruct (writesLookup x), (writesLookup y);
        (done || by constructor).
    - by etrans. }
  assert (NoDup (map position (List.filter writesLookup entries'))) as Hnd'.
  { by rewrite <- (Permutation_map position Hfp). }
  assert (gatherMtEntries entries = gatherMtEntries entries') as Heq.
  { apply map_eq. intros p. apply option_eq. intros a.
    rewrite (gather_lookup_unique entries p a Hnd),
            (gather_lookup_unique entries' p a Hnd').
    split; intros (e & He & Hrest); exists e; (split; [|exact Hrest]).
    - by rewrite <- Hperm.
    - by rewrite Hperm. }
  unfold estimateHaplogroupsWith. by rewrite Heq.
Qed.

Lemma classifier_order_independent_witness :
  estimateHaplogroupsWith mtRules
    [mkEntry "i1" "MT" 7028 "" "" "" "C"; mkEntry "i2" "MT" 2706 "" "A" "" ""] =
  estimateHaplogroupsWith mtRules
    [mkEntry "i2" "MT" 2706 "" "A" "" ""; mkEntry "i1" "MT" 7028 "" "" "" "C"].
Proof.
  apply (classifier_order_independent mtRules
    [mkEntry "i1" "MT" 7028 "" "" "" "C"; mkEntry "i2" "MT" 2706 "" "A" "" ""]
    [mkEntry "i2" "MT" 2706 "" "A" "" ""; mkEntry "i1" "MT" 7028 "" "" "" "C"]).
  - apply perm_swap.
  - apply (bool_decide_unpack _). by vm_compute.
Defined.

End LookupOrder.
